(** * smolboard: sessions, sign-in and sign-up of the [db] package

    A shallow embedding of the session file of package [db]: the
    [Session] row, the lookup-and-renew path ([QuerySession]), session
    creation with its expiry sweep ([insert], [cleanupSession]), the
    transactional flows ([Signin], [Signup]), the per-session operations
    ([Signout], [DeleteSessionID]) and the token generator ([randToken]).

    The HTTP client of package [client] follows in [Module Client]: its
    status-code error, [Do], [DoJSON] and [Request], over a record [Net]
    of what the client obtains from the network and the JSON and URL
    libraries.

    The database is a record of tables, each a list of rows in table
    order.  Everything the Go code obtains from outside the process is
    read from an environment [Env]: the wall clock, the entropy source,
    the session id generator, the outcome of each round trip to the SQL
    driver and the bcrypt primitives.  A [State] threads the tables and
    the number of readings taken from each of these sources. *)

From Stdlib Require Import ZArith NArith List String Ascii Bool Lia.
From Stdlib Require Import DecimalString.
Import ListNotations.

Open Scope string_scope.
Open Scope list_scope.
Open Scope Z_scope.

(** ** Errors *)

(** Go [error] values.  [HTTPError] is [httperr.New(code, msg)];
    [Wrapped] is [errors.Wrap(cause, msg)]. *)
Inductive error : Type :=
| HTTPError (code : Z) (msg : string)
| ErrNoRows                    (* sql.ErrNoRows *)
| ErrDriver                    (* any other failure reported by database/sql *)
| ErrConstraint                (* a UNIQUE constraint rejected the statement *)
| ErrEntropy                   (* crypto/rand could not be read *)
| ErrBcrypt                    (* bcrypt could not hash the password *)
| ErrInvalidPassword
| ErrInvalidToken
| ErrUsernameTaken
| Wrapped (cause : error) (msg : string).

Definition ErrSessionNotFound : error := HTTPError 401 "session not found".
Definition ErrSessionExpired : error := HTTPError 410 "session expired".

Fixpoint error_eqb (a b : error) : bool :=
  match a, b with
  | HTTPError c m, HTTPError c' m' => (c =? c') && String.eqb m m'
  | ErrNoRows, ErrNoRows => true
  | ErrDriver, ErrDriver => true
  | ErrConstraint, ErrConstraint => true
  | ErrEntropy, ErrEntropy => true
  | ErrBcrypt, ErrBcrypt => true
  | ErrInvalidPassword, ErrInvalidPassword => true
  | ErrInvalidToken, ErrInvalidToken => true
  | ErrUsernameTaken, ErrUsernameTaken => true
  | Wrapped e m, Wrapped e' m' => error_eqb e e' && String.eqb m m'
  | _, _ => false
  end.

(** [errors.Is(err, target)]: [err] or one of the errors it wraps is
    [target]. *)
Fixpoint errors_Is (err target : error) : bool :=
  error_eqb err target ||
  match err with
  | Wrapped cause _ => errors_Is cause target
  | _ => false
  end.

Inductive Result (A : Type) : Type :=
| Ok (a : A)
| Err (e : error).
Arguments Ok {A} a.
Arguments Err {A} e.

(** ** Time *)

(** A [time.Time] instant, in nanoseconds since the Unix epoch, and a
    [time.Duration], in nanoseconds. *)
Definition Time : Type := Z.
Definition Duration : Type := Z.

(** The value of an [int64] holding [z]. *)
Definition wrap64 (z : Z) : Z := (z + 2 ^ 63) mod 2 ^ 64 - 2 ^ 63.

Definition int64_range (z : Z) : Prop := - 2 ^ 63 <= z < 2 ^ 63.

(** [t.Add(d)] *)
Definition Time_Add (t : Time) (d : Duration) : Time := t + d.

(** [t.UnixNano()], an [int64]. *)
Definition UnixNano (t : Time) : Z := wrap64 t.

Arguments wrap64 : simpl never.
Arguments Time_Add : simpl never.
Arguments UnixNano : simpl never.

(** ** Rows and tables *)

Record Session : Type := mkSession {
  ID : Z;
  Username : string;
  AuthToken : string;
  Deadline : Z;
  UserAgent : string
}.

Definition with_Deadline (d : Z) (s : Session) : Session :=
  mkSession (ID s) (Username s) (AuthToken s) d (UserAgent s).

(** Modelled from the spec: the [users] row, declared outside this file.
    The spec names the account identifier, the stored password hash and a
    permission tier. *)
Record User : Type := mkUser {
  user_name : string;
  user_passhash : list Byte.byte;
  user_permission : Z
}.

(** Modelled from the spec: the invite-token row, declared outside this
    file.  The spec describes a token with a number of remaining uses that
    consumption decrements; it gives an invite no expiry field, so none is
    kept here. *)
Record Invite : Type := mkInvite {
  invite_token : string;
  invite_remaining : Z
}.

Record Tables : Type := mkTables {
  sessions : list Session;
  users : list User;
  tokens : list Invite
}.

Definition with_sessions (ss : list Session) (t : Tables) : Tables :=
  mkTables ss (users t) (tokens t).
Definition with_users (us : list User) (t : Tables) : Tables :=
  mkTables (sessions t) us (tokens t).
Definition with_tokens (ts : list Invite) (t : Tables) : Tables :=
  mkTables (sessions t) (users t) ts.

(** ** Statements *)

(** [SELECT * FROM sessions WHERE authtoken = ?], first row. *)
Definition select_session_by_token (token : string) (ss : list Session)
  : option Session :=
  find (fun r => String.eqb (AuthToken r) token) ss.

(** [UPDATE sessions SET deadline = ? WHERE authtoken = ?] *)
Definition update_deadline (deadline : Z) (token : string)
    (ss : list Session) : list Session :=
  map (fun r => if String.eqb (AuthToken r) token
                then with_Deadline deadline r else r) ss.

(** Modelled from the spec: the schema of [sessions], declared outside
    this file, makes [id] and [authtoken] unique. *)
Definition session_collides (s r : Session) : bool :=
  (ID r =? ID s) || String.eqb (AuthToken r) (AuthToken s).

(** [INSERT INTO sessions VALUES (?, ?, ?, ?, ?)] *)
Definition insert_session (s : Session) (ss : list Session)
  : Result (list Session) :=
  if existsb (session_collides s) ss then Err ErrConstraint
  else Ok (ss ++ [s]).

(** [DELETE FROM sessions WHERE <cond>]: the rows left, and whether a
    row was deleted. *)
Definition delete_where (cond : Session -> bool) (ss : list Session)
  : list Session :=
  filter (fun r => negb (cond r)) ss.

Definition any_row (cond : Session -> bool) (ss : list Session) : bool :=
  existsb cond ss.

(** [... WHERE deadline < ?] *)
Definition deadline_before (now : Z) (r : Session) : bool :=
  Deadline r <? now.

(** [... WHERE authtoken = ?] *)
Definition has_token (token : string) (r : Session) : bool :=
  String.eqb (AuthToken r) token.

(** [... WHERE username = ?] *)
Definition has_username (user : string) (r : Session) : bool :=
  String.eqb (Username r) user.

(** [... WHERE id = ? AND username = ?] *)
Definition has_id_and_username (id : Z) (user : string) (r : Session)
  : bool :=
  (ID r =? id) && String.eqb (Username r) user.

(** [SELECT passhash FROM users WHERE username = ?], first row. *)
Definition select_passhash (user : string) (us : list User)
  : option (list Byte.byte) :=
  option_map user_passhash
    (find (fun u => String.eqb (user_name u) user) us).

(** Modelled from the spec: the statement of [useToken], a helper defined
    outside this file.  The spec has it decrement the remaining uses of
    the invite token, and fail when the token is unknown or exhausted. *)
Definition invite_usable (token : string) (i : Invite) : bool :=
  String.eqb (invite_token i) token && (0 <? invite_remaining i).

Definition consume_invite (token : string) (ts : list Invite)
  : list Invite :=
  map (fun i => if invite_usable token i
                then mkInvite (invite_token i) (invite_remaining i - 1)
                else i) ts.

(** Modelled from the spec: the statement of [User.insert], a method
    defined outside this file.  The spec has it add the user row and
    fail on a username that is already there. *)
Definition username_taken (name : string) (us : list User) : bool :=
  existsb (fun u => String.eqb (user_name u) name) us.

(** ** The token alphabet: [base64.RawURLEncoding] *)

Definition encodeURL : string :=
  "ABCDEFGHIJKLMNOPQRSTUVWXYZabcdefghijklmnopqrstuvwxyz0123456789-_".

(** [enc.encode[i]] *)
Definition enc (i : N) : ascii :=
  match String.get (N.to_nat i) encodeURL with
  | Some c => c
  | None => Ascii.zero
  end.

Definition sextet (val : N) (shift : N) : ascii :=
  enc (N.land (N.shiftr val shift) 63).

(** [enc.EncodeToString(src)] with no padding character: three bytes
    make four characters, and a remainder of one or two bytes makes two
    or three. *)
Fixpoint EncodeToString (src : list Byte.byte) : string :=
  match src with
  | [] => EmptyString
  | [a] =>
      let val := N.shiftl (Byte.to_N a) 16 in
      String (sextet val 18) (String (sextet val 12) EmptyString)
  | [a; b] =>
      let val := N.lor (N.shiftl (Byte.to_N a) 16)
                       (N.shiftl (Byte.to_N b) 8) in
      String (sextet val 18) (String (sextet val 12)
        (String (sextet val 6) EmptyString))
  | a :: b :: c :: rest =>
      let val := N.lor (N.lor (N.shiftl (Byte.to_N a) 16)
                              (N.shiftl (Byte.to_N b) 8))
                       (Byte.to_N c) in
      String (sextet val 18) (String (sextet val 12)
        (String (sextet val 6) (String (sextet val 0)
          (EncodeToString rest))))
  end.

Arguments EncodeToString : simpl never.

(** The characters that need no escaping in a URL or a cookie value:
    letters, digits, [-] and [_]. *)
Definition url_safe (c : ascii) : bool :=
  let n := N_of_ascii c in
  ((65 <=? n) && (n <=? 90) || (97 <=? n) && (n <=? 122) ||
   (48 <=? n) && (n <=? 57) || (n =? 45) || (n =? 95))%N.

Fixpoint all_chars (p : ascii -> bool) (s : string) : bool :=
  match s with
  | EmptyString => true
  | String c s' => p c && all_chars p s'
  end.

(** The position of a character in the alphabet. *)
Definition dec (c : ascii) : option N :=
  let n := N_of_ascii c in
  (if (65 <=? n) && (n <=? 90) then Some (n - 65)
   else if (97 <=? n) && (n <=? 122) then Some (n - 97 + 26)
   else if (48 <=? n) && (n <=? 57) then Some (n - 48 + 52)
   else if n =? 45 then Some 62
   else if n =? 95 then Some 63
   else None)%N.

Definition byte_at (val : N) (shift : N) : Byte.byte :=
  match Byte.of_N (N.land (N.shiftr val shift) 255) with
  | Some b => b
  | None => Byte.x00
  end.

(** The reading of an unpadded token back into bytes. *)
Fixpoint DecodeString (s : string) : option (list Byte.byte) :=
  match s with
  | EmptyString => Some []
  | String c0 (String c1 EmptyString) =>
      match dec c0, dec c1 with
      | Some s0, Some s1 =>
          let val := N.lor (N.shiftl s0 18) (N.shiftl s1 12) in
          Some [byte_at val 16]
      | _, _ => None
      end
  | String c0 (String c1 (String c2 EmptyString)) =>
      match dec c0, dec c1, dec c2 with
      | Some s0, Some s1, Some s2 =>
          let val := N.lor (N.lor (N.shiftl s0 18) (N.shiftl s1 12))
                           (N.shiftl s2 6) in
          Some [byte_at val 16; byte_at val 8]
      | _, _, _ => None
      end
  | String c0 (String c1 (String c2 (String c3 rest))) =>
      match dec c0, dec c1, dec c2, dec c3, DecodeString rest with
      | Some s0, Some s1, Some s2, Some s3, Some bs =>
          let val := N.lor (N.lor (N.lor (N.shiftl s0 18) (N.shiftl s1 12))
                                  (N.shiftl s2 6)) s3 in
          Some (byte_at val 16 :: byte_at val 8 :: byte_at val 0 :: bs)
      | _, _, _, _, _ => None
      end
  | String _ EmptyString => None
  end.

(** Bit positions of a number that hold no bit: all from [k] up, and all
    below [k]. *)
Definition clear_from (k v : N) : Prop :=
  forall n, (k <= n)%N -> N.testbit v n = false.

Definition clear_below (k v : N) : Prop :=
  forall n, (n < k)%N -> N.testbit v n = false.

(** Modelled from the spec: the default permission tier, a constant
    declared outside this file. *)
Definition PermissionNormal : Z := 0.

(** ** The environment and the threaded state *)

Record Env : Type := mkEnv {
  (** the [n]-th reading of [time.Now()] *)
  wall : nat -> Time;
  (** the [n]-th call of [rand.Read]: an error, or the bytes it delivers *)
  entropy : nat -> option (nat -> Byte.byte);
  (** the [n]-th id made by [sessionIDGen.Generate()] *)
  snowflake : nat -> Z;
  (** whether the [n]-th round trip to the SQL driver fails *)
  fault : nat -> bool;
  (** bcrypt: hashing a password, and comparing a hash with a password *)
  bcrypt_hash : string -> option (list Byte.byte);
  bcrypt_matches : list Byte.byte -> string -> bool
}.

Record State : Type := mkState {
  tabs : Tables;
  clock_reads : nat;
  rand_reads : nat;
  ids_made : nat;
  db_ops : nat
}.

Definition with_tabs (t : Tables) (st : State) : State :=
  mkState t (clock_reads st) (rand_reads st) (ids_made st) (db_ops st).

Section Program.

Variable E : Env.

(** A computation reads and updates the state and returns a value or an
    error; the state survives an error. *)
Definition M (A : Type) : Type := State -> Result A * State.

Definition ret {A} (a : A) : M A := fun st => (Ok a, st).

Definition raise {A} (e : error) : M A := fun st => (Err e, st).

Definition bind {A B} (m : M A) (k : A -> M B) : M B :=
  fun st =>
    match m st with
    | (Ok a, st') => k a st'
    | (Err e, st') => (Err e, st')
    end.

(** [if err != nil { return errors.Wrap(err, msg) }] *)
Definition wrap_err {A} (m : M A) (msg : string) : M A :=
  fun st =>
    match m st with
    | (Ok a, st') => (Ok a, st')
    | (Err e, st') => (Err (Wrapped e msg), st')
    end.

Notation "x <- m ;; k" := (bind m (fun x => k))
  (at level 61, m at next level, right associativity).

(** [time.Now()] *)
Definition time_Now : M Time :=
  fun st =>
    (Ok (wall E (clock_reads st)),
     mkState (tabs st) (S (clock_reads st)) (rand_reads st)
             (ids_made st) (db_ops st)).

(** [rand.Read(b)] with [len(b) = n] *)
Definition rand_Read (n : nat) : M (list Byte.byte) :=
  fun st =>
    (match entropy E (rand_reads st) with
     | Some src => Ok (map src (seq 0 n))
     | None => Err ErrEntropy
     end,
     mkState (tabs st) (clock_reads st) (S (rand_reads st))
             (ids_made st) (db_ops st)).

(** [sessionIDGen.Generate()] *)
Definition sessionIDGen_Generate : M Z :=
  fun st =>
    (Ok (snowflake E (ids_made st)),
     mkState (tabs st) (clock_reads st) (rand_reads st)
             (S (ids_made st)) (db_ops st)).

(** One round trip to the driver: it fails as a whole and leaves the
    tables alone, or runs the statement on the tables. *)
Definition driver {A} (stmt : Tables -> Result A * Tables) : M A :=
  fun st =>
    let st' := mkState (tabs st) (clock_reads st) (rand_reads st)
                       (ids_made st) (S (db_ops st)) in
    if fault E (db_ops st) then (Err ErrDriver, st')
    else let (r, t) := stmt (tabs st) in (r, with_tabs t st').

(** [tx.QueryRowx("SELECT * FROM sessions WHERE authtoken = ?", token).StructScan(&s)] *)
Definition scan_session (token : string) : M Session :=
  driver (fun t =>
    match select_session_by_token token (sessions t) with
    | Some s => (Ok s, t)
    | None => (Err ErrNoRows, t)
    end).

(** [tx.Exec("UPDATE sessions SET deadline = ? WHERE authtoken = ?", ...)] *)
Definition exec_update_deadline (deadline : Z) (token : string) : M unit :=
  driver (fun t =>
    (Ok tt, with_sessions (update_deadline deadline token (sessions t)) t)).

(** [QuerySession] *)
Definition QuerySession (token : string) (renewTTL : Duration) : M Session :=
  fun st =>
    match scan_session token st with
    | (Err err, st1) =>
        if errors_Is err ErrNoRows then (Err ErrSessionExpired, st1)
        else (Err (Wrapped err "Failed to scan session"), st1)
    | (Ok s, st1) =>
        (now <- time_Now ;;
         if UnixNano now >? Deadline s then raise ErrSessionExpired
         else
           let now := Time_Add now renewTTL in
           let s := with_Deadline (UnixNano now) s in
           _ <- wrap_err (exec_update_deadline (Deadline s) (AuthToken s))
                         "Failed to renew token" ;;
           ret s) st1
    end.

(** [randToken] *)
Definition randToken : M string :=
  token <- wrap_err (rand_Read 32) "Failed to generate randomness" ;;
  ret (EncodeToString token).

(** [NewSession] *)
Definition NewSession (username userAgent : string) (ttl : Duration)
  : M Session :=
  t <- wrap_err randToken "Failed to generate a token" ;;
  id <- sessionIDGen_Generate ;;
  now <- time_Now ;;
  ret (mkSession id username t (UnixNano (Time_Add now ttl)) userAgent).

(** [tx.Exec("INSERT INTO sessions VALUES (?, ?, ?, ?, ?)", ...)] *)
Definition exec_insert_session (s : Session) : M unit :=
  driver (fun t =>
    match insert_session s (sessions t) with
    | Ok ss => (Ok tt, with_sessions ss t)
    | Err e => (Err e, t)
    end).

(** [tx.Exec("DELETE FROM sessions WHERE ...", ...)] *)
Definition exec_delete (cond : Session -> bool) : M unit :=
  driver (fun t =>
    (Ok tt, with_sessions (delete_where cond (sessions t)) t)).

(** [cleanupSession]: the statement's argument is a reading of the
    clock taken here; the parameter [now] is not used. *)
Definition cleanupSession (now : Z) : M unit :=
  now' <- time_Now ;;
  _ <- wrap_err (exec_delete (deadline_before (UnixNano now')))
                "Faield to cleanup expired sessions" ;;
  ret tt.

(** [(s *Session) insert] *)
Definition insert (s : Session) : M unit :=
  _ <- wrap_err (exec_insert_session s) "Failed to save session" ;;
  now <- time_Now ;;
  cleanupSession (UnixNano now).

(** *** Transactions *)

(** [d.DB.BeginTx(ctx, nil)]: the handle remembers the committed tables. *)
Definition BeginTx : M Tables :=
  driver (fun t => (Ok t, t)).

(** [t.Commit()] *)
Definition Commit : M unit :=
  driver (fun t => (Ok tt, t)).

(** [t.Rollback()] on an open transaction: one more round trip, and the
    tables are the committed ones again whatever the driver answers (the
    deferred call drops its error). *)
Definition Rollback (committed : Tables) (st : State) : State :=
  mkState committed (clock_reads st) (rand_reads st) (ids_made st)
          (S (db_ops st)).

(** The frame shared by [Signin] and [Signup]:
    [t, err := d.DB.BeginTx(ctx, nil)], [defer t.Rollback()], the body,
    and [return s, t.Commit()].  A pair [(s, err)] is what the Go function
    returns.  After [Commit] the deferred [Rollback] finds the transaction
    done and does nothing; a [Commit] that fails leaves the committed
    tables as they were. *)
Definition transaction {A} (body : M A)
  : State -> (option A * option error) * State :=
  fun st =>
    match BeginTx st with
    | (Err err, st1) =>
        ((None, Some (Wrapped err "Failed to begin transaction")), st1)
    | (Ok committed, st1) =>
        match body st1 with
        | (Err err, st2) => ((None, Some err), Rollback committed st2)
        | (Ok a, st2) =>
            match Commit st2 with
            | (Ok _, st3) => ((Some a, None), st3)
            | (Err err, st3) => ((Some a, Some err), with_tabs committed st3)
            end
        end
    end.

(** [t.QueryRow("SELECT passhash FROM users WHERE username = ?", user)]
    and [r.Scan(&passhash)] *)
Definition scan_passhash (user : string) : M (list Byte.byte) :=
  driver (fun t =>
    match select_passhash user (users t) with
    | Some h => (Ok h, t)
    | None => (Err ErrNoRows, t)
    end).

(** Modelled from the spec: [VerifyPassword], defined outside this file.
    The spec has it compare the password with the stored hash and report
    a mismatch as [InvalidPassword]. *)
Definition VerifyPassword (passhash : list Byte.byte) (pass : string)
  : M unit :=
  if bcrypt_matches E passhash pass then ret tt
  else raise ErrInvalidPassword.

(** The statements of [Signin] between [BeginTx] and [Commit]. *)
Definition Signin_tx (tokenLifespan : Duration) (user pass UA : string)
  : M Session :=
  fun st =>
    match scan_passhash user st with
    | (Err err, st1) =>
        if errors_Is err ErrNoRows then (Err ErrInvalidPassword, st1)
        else (Err (Wrapped err "Failed to scan for password"), st1)
    | (Ok passhash, st1) =>
        (_ <- VerifyPassword passhash pass ;;
         s <- NewSession user UA tokenLifespan ;;
         _ <- insert s ;;
         ret s) st1
    end.

(** [(d *Database) Signin]; [tokenLifespan] is [d.Config.tokenLifespan]. *)
Definition Signin (tokenLifespan : Duration) (user pass UA : string)
  : State -> (option Session * option error) * State :=
  transaction (Signin_tx tokenLifespan user pass UA).

(** Modelled from the spec: [useToken], defined outside this file.  It
    consumes one use of the invite token and fails with [InvalidToken]
    when no usable token of that name is there. *)
Definition useToken (token : string) : M unit :=
  changed <- wrap_err
    (driver (fun t =>
       (Ok (existsb (invite_usable token) (tokens t)),
        with_tokens (consume_invite token (tokens t)) t)))
    "Failed to consume token" ;;
  if changed : bool then ret tt else raise ErrInvalidToken.

(** Modelled from the spec: [NewUser], defined outside this file.  It
    makes the user record, with the hash of the password, at the given
    permission tier. *)
Definition NewUser (name pass : string) (perm : Z) : M User :=
  match bcrypt_hash E pass with
  | Some h => ret (mkUser name h perm)
  | None => raise (Wrapped ErrBcrypt "Failed to generate password")
  end.

(** Modelled from the spec: [User.insert], defined outside this file.  It
    adds the user row and fails with [UsernameTaken] when the name is
    already there. *)
Definition User_insert (u : User) : M unit :=
  fun st =>
    match driver (fun t =>
            if username_taken (user_name u) (users t)
            then (Err ErrConstraint, t)
            else (Ok tt, with_users (users t ++ [u]) t)) st with
    | (Ok _, st1) => (Ok tt, st1)
    | (Err err, st1) =>
        if errors_Is err ErrConstraint then (Err ErrUsernameTaken, st1)
        else (Err (Wrapped err "Failed to save user"), st1)
    end.

(** The statements of [Signup] between [BeginTx] and [Commit]. *)
Definition Signup_tx (tokenLifespan : Duration)
    (user pass token UA : string) : M Session :=
  _ <- useToken token ;;
  u <- NewUser user pass PermissionNormal ;;
  _ <- User_insert u ;;
  s <- NewSession user UA tokenLifespan ;;
  _ <- insert s ;;
  ret s.

(** [(d *Database) Signup] *)
Definition Signup (tokenLifespan : Duration) (user pass token UA : string)
  : State -> (option Session * option error) * State :=
  transaction (Signup_tx tokenLifespan user pass token UA).

(** *** Operations of a transaction that carries a resolved session *)

(** Modelled from the spec: [execChanged], a method of [Transaction]
    defined outside this file.  It runs a statement and tells whether it
    changed a row. *)
Definition execChanged (cond : Session -> bool) : M bool :=
  driver (fun t =>
    (Ok (any_row cond (sessions t)),
     with_sessions (delete_where cond (sessions t)) t)).

(** [(d *Transaction) Signout]; [session] is [d.session]. *)
Definition Signout (session : Session) : M unit :=
  c <- wrap_err (execChanged (has_token (AuthToken session)))
                "Failed to delete token" ;;
  if c : bool then ret tt else raise ErrSessionNotFound.

(** [(d *Transaction) Session] *)
Definition Transaction_Session (session : Session) : Session := session.

(** [d.Queryx("SELECT * FROM sessions WHERE username = ?", ...)]: the
    rows the cursor will deliver. *)
Definition Queryx_sessions (user : string) : M (list Session) :=
  driver (fun t => (Ok (filter (has_username user) (sessions t)), t)).

(** The loop [for r.Next() { ...; sessions = append(sessions, s) }] over
    the rows still to come, [acc] being [sessions].  Each [r.Next()] is a
    round trip to the driver; when the driver fails there, [Next] answers
    false as it does after the last row, and the loop ends: [r.Err()] is
    not consulted.  [r.StructScan(&s)] of a row of [sessions] into a
    [Session] does not fail. *)
Fixpoint scan_rows (rows acc : list Session) : M (list Session) :=
  fun st =>
    let st' := mkState (tabs st) (clock_reads st) (rand_reads st)
                       (ids_made st) (S (db_ops st)) in
    match rows with
    | [] => (Ok acc, st')
    | s :: rows' =>
        if fault E (db_ops st) then (Ok acc, st')
        else scan_rows rows' (acc ++ [s]) st'
    end.

(** [(d *Transaction) Sessions] *)
Definition Sessions (session : Session) : M (list Session) :=
  r <- wrap_err (Queryx_sessions (Username session))
                "Failed to query for sessions" ;;
  scan_rows r [].

(** [(d *Transaction) DeleteSessionID] *)
Definition DeleteSessionID (session : Session) (id : Z) : M unit :=
  c <- wrap_err
         (execChanged (has_id_and_username id (Username session)))
         "Failed to delete token with ID" ;;
  if c : bool then ret tt else raise ErrSessionNotFound.

End Program.

(** ** A small database and environment to run the program on *)

Module Sample.

Definition hour : Duration := 3600 * 1000000000.

Definition hash_of_secret : list Byte.byte := [Byte.x24; Byte.x32; Byte.x61].

(** The clock starts at noon and advances by half an hour per reading. *)
Definition env : Env :=
  mkEnv (fun n => 12 * hour + Z.of_nat n * (hour / 2))
        (fun _ => Some (fun i =>
           match Byte.of_nat (7 * i + 3) with
           | Some b => b
           | None => Byte.x00
           end))
        (fun n => 100 + Z.of_nat n)
        (fun _ => false)
        (fun _ => Some hash_of_secret)
        (fun h p => String.eqb p "secret").

(** The same, with a driver that fails on round trip [n]. *)
Definition env_fault_at (n : nat) : Env :=
  mkEnv (wall env) (entropy env) (snowflake env) (Nat.eqb n)
        (bcrypt_hash env) (bcrypt_matches env).

(** The same, with an entropy source that cannot be read. *)
Definition env_no_entropy : Env :=
  mkEnv (wall env) (fun _ => None) (snowflake env) (fault env)
        (bcrypt_hash env) (bcrypt_matches env).

Definition alice_phone : Session :=
  mkSession 1 "alice" "tok-alice" (13 * hour) "phone".

Definition bob_laptop : Session :=
  mkSession 2 "bob" "tok-bob" (12 * hour) "laptop".

Definition carol_old : Session :=
  mkSession 3 "carol" "tok-carol" (11 * hour) "tablet".

Definition tables : Tables :=
  mkTables [alice_phone; bob_laptop; carol_old]
           [mkUser "alice" hash_of_secret 0; mkUser "bob" hash_of_secret 0]
           [mkInvite "fresh" 1; mkInvite "spent" 0].

Definition start : State := mkState tables 0 0 0 0.

(** The session [NewSession] makes for Alice at [start] under a lifespan
    of two hours, and the states after [NewSession] and after [insert]. *)
Definition alice_new : Session :=
  mkSession 100 "alice" "AwoRGB8mLTQ7QklQV15lbHN6gYiPlp2kq7K5wMfO1dw"
            (14 * hour) "UA".

Definition after_NewSession : State := mkState tables 1 1 1 0.

Definition after_insert : State :=
  mkState (mkTables [alice_phone; alice_new] (users tables) (tokens tables))
          3 1 1 2.

End Sample.

(** ** The HTTP client of package [client] *)

Module Client.

(** [ErrUnexpectedStatusCode] *)
Record ErrUnexpectedStatusCode : Type := mkUnexpected {
  Code : Z;
  Body : string;
  ErrMsg : string
}.

(** Go [error] values met in this package; a [nil] error is [None]. *)
Inductive error : Type :=
| Unexpected (e : ErrUnexpectedStatusCode)
| ErrTransport                 (* an error of http.Client.Do *)
| ErrNewRequest                (* an error of http.NewRequest *)
| ErrJSON                      (* an error of the JSON decoder *)
| Wrapped (cause : error) (msg : string).

Inductive Result (A : Type) : Type :=
| Ok (a : A)
| Err (e : error).
Arguments Ok {A} a.
Arguments Err {A} e.

(** [err.(StatusCoder)]: of these errors [ErrUnexpectedStatusCode] alone
    has a method [StatusCode]; the value [errors.Wrap] makes has none. *)
Definition as_StatusCoder (err : option error)
  : option ErrUnexpectedStatusCode :=
  match err with
  | Some (Unexpected e) => Some e
  | _ => None
  end.

(** [(err ErrUnexpectedStatusCode) StatusCode] *)
Definition StatusCode (err : ErrUnexpectedStatusCode) : Z := Code err.

(** [ErrGetStatusCode] *)
Definition ErrGetStatusCode (err : option error) (orCode : Z) : Z :=
  match as_StatusCoder err with
  | Some scode => StatusCode scode
  | None => orCode
  end.

(** [fmt.Sprintf("%d", n)] *)
Definition Sprintf_d (n : Z) : string := NilZero.string_of_int (Z.to_int n).

(** [(err ErrUnexpectedStatusCode) Error] *)
Definition Error (err : ErrUnexpectedStatusCode) : string :=
  let errstr :=
    String.append "Unexpected status code " (Sprintf_d (Code err)) in
  if negb (String.eqb (ErrMsg err) "")
  then String.append errstr (String.append ": " (ErrMsg err))
  else if negb (String.eqb (Body err) "")
  then String.append errstr (String.append ", body: " (Body err))
  else errstr.

(** An [http.Request]: method, URL, body ([None] for none) and headers;
    an [http.Response]: status code, and what [ioutil.ReadAll(r.Body)]
    gives ([None] when the read fails). *)
Record http_Request : Type := mkRequest {
  Method : string;
  URL : string;
  ReqBody : option string;
  Header : list (string * string)
}.

Record http_Response : Type := mkResponse {
  RespStatus : Z;
  RespBody : option string
}.

(** [url.Values] *)
Definition Values : Type := list (string * list string).

(** [req.Header.Set(key, value)] *)
Definition Header_Set (key value : string) (req : http_Request) : http_Request :=
  mkRequest (Method req) (URL req) (ReqBody req)
    ((key, value)
     :: filter (fun kv => negb (String.eqb (fst kv) key)) (Header req)).

Definition MethodPatch : string := "PATCH".
Definition MethodPost : string := "POST".
Definition MethodPut : string := "PUT".

(** What the client gets from outside: the transport under
    [http.Client.Do], the [Error] field [json.Unmarshal] reads out of an
    error body, the JSON decoder, whether [http.NewRequest] accepts a
    method and URL, and [url.Values.Encode]. *)
Record Net : Type := mkNet {
  RoundTrip : http_Request -> Result http_Response;
  json_Error : string -> string;
  json_Decode : string -> option string;
  NewRequest_accepts : string -> string -> bool;
  Values_Encode : Values -> string
}.

(** [Client]: [host] is the text of the host URL, [c.host.String()]. *)
Record Client : Type := mkClient {
  host : string;
  agent : string
}.

Section Calls.

Variable W : Net.

(** [(c *Client) SetUserAgent] *)
Definition SetUserAgent (c : Client) (userAgent : string) : Client :=
  mkClient (host c) userAgent.

(** [(c *Client) Host] *)
Definition Host (c : Client) : string := host c.

(** [(c *Client) Endpoint] *)
Definition Endpoint (c : Client) : string := String.append (Host c) "/api/v1".

(** [if c.agent != "" { req.Header.Set("User-Agent", c.agent) }] *)
Definition override_UserAgent (c : Client) (req : http_Request) : http_Request :=
  if negb (String.eqb (agent c) "")
  then Header_Set "User-Agent" (agent c) req
  else req.

(** [(c *Client) Do] *)
Definition Do (c : Client) (req : http_Request) : Result http_Response :=
  match RoundTrip W (override_UserAgent c req) with
  | Err err => Err (Wrapped err "Failed to send request")
  | Ok r =>
      if (RespStatus r <? 200) || (RespStatus r >? 299)
      then
        let unexp := mkUnexpected (RespStatus r) "" "" in
        match RespBody r with
        | Some b =>
            let errResp := json_Error W b in
            if negb (String.eqb errResp "")
            then Err (Unexpected (mkUnexpected (Code unexp) (Body unexp)
                                               errResp))
            else if (100 <? String.length b)%nat
            then Err (Unexpected
                        (mkUnexpected (Code unexp)
                           (String.append (String.substring 0 97 b) "...")
                           (ErrMsg unexp)))
            else Err (Unexpected (mkUnexpected (Code unexp) b
                                               (ErrMsg unexp)))
        | None => Err (Unexpected unexp)
        end
      else Ok r
  end.

(** [(c *Client) DoJSON]; [want] tells whether [resp != nil], and the
    value is what was decoded into [resp]. *)
Definition DoJSON (c : Client) (req : http_Request) (want : bool)
  : Result (option string) :=
  match Do c req with
  | Err err => Err err
  | Ok q =>
      if want
      then
        match match RespBody q with
              | Some b => json_Decode W b
              | None => None
              end with
        | Some v => Ok (Some v)
        | None => Err (Wrapped ErrJSON "Failed to decode JSON")
        end
      else Ok None
  end.

(** [http.NewRequest(method, url, body)] *)
Definition NewRequest (method url : string) (body : option string)
  : Result http_Request :=
  if NewRequest_accepts W method url
  then Ok (mkRequest method url body [])
  else Err ErrNewRequest.

(** [(c *Client) Request] *)
Definition Request (c : Client) (method path : string) (want : bool)
    (v : Values) : Result (option string) :=
  let r :=
    if String.eqb method MethodPatch || String.eqb method MethodPost
       || String.eqb method MethodPut
    then
      match NewRequest method (String.append (Endpoint c) path)
                       (Some (Values_Encode W v)) with
      | Ok r =>
          Ok (Header_Set "Content-Type" "application/x-www-form-urlencoded"
                         r)
      | Err err => Err err
      end
    else
      NewRequest method
        (String.append (Endpoint c)
           (String.append path (String.append "?" (Values_Encode W v))))
        None in
  match r with
  | Err err => Err (Wrapped err "Failed to create request")
  | Ok r => DoJSON c r want
  end.

(** [(c *Client) Post], [Get] and [Delete] *)
Definition Post (c : Client) (path : string) (want : bool) (v : Values)
  : Result (option string) :=
  Request c "POST" path want v.

Definition Get (c : Client) (path : string) (want : bool) (v : Values)
  : Result (option string) :=
  Request c "GET" path want v.

Definition Delete (c : Client) (path : string) (want : bool) (v : Values)
  : Result (option string) :=
  Request c "DELETE" path want v.

End Calls.

(** A server that answers every request with one response, and one that
    cannot be reached. *)
Definition answering (r : http_Response) (jsonError : string -> string) : Net :=
  mkNet (fun _ => Ok r) jsonError (fun b => Some b) (fun _ _ => true)
        (fun _ => "a=1").

Definition unreachable : Net :=
  mkNet (fun _ => Err ErrTransport) (fun _ => "") (fun b => Some b)
        (fun _ _ => true) (fun _ => "a=1").

Definition browser : Client := mkClient "https://board.example" "smol/1".

End Client.

(** ** More sample data *)

Module More.

(** The sample environment with an entropy source of zero bytes. *)
Definition env_zero_entropy : Env :=
  mkEnv (wall Sample.env) (fun _ => Some (fun _ => Byte.x00))
        (snowflake Sample.env) (fault Sample.env)
        (bcrypt_hash Sample.env) (bcrypt_matches Sample.env).

(** An error page of 120 bytes. *)
Definition long_body : string :=
  "0123456789012345678901234567890123456789012345678901234567890123456789012345678901234567890123456789<<<<<<<<<<>>>>>>>>>>".

End More.

(** ** Basic facts *)

(** Projections of explicit states and tables, and nothing else. *)
Ltac st_simpl :=
  cbn [tabs clock_reads rand_reads ids_made db_ops sessions users tokens
       with_tabs with_sessions with_users with_tokens Rollback fst snd].

Lemma wrap64_range (z : Z) : int64_range (wrap64 z).
Proof.
  unfold int64_range, wrap64.
  pose proof (Z.mod_pos_bound (z + 2 ^ 63) (2 ^ 64) ltac:(lia)). lia.
Qed.

Lemma wrap64_id (z : Z) : int64_range z -> wrap64 z = z.
Proof.
  unfold int64_range, wrap64. intros H.
  rewrite Z.mod_small by lia. lia.
Qed.

Lemma UnixNano_Add_exact (t : Time) (d : Duration) :
  int64_range (t + d) -> UnixNano (Time_Add t d) = t + d.
Proof. apply wrap64_id. Qed.

Lemma find_token_AuthToken token ss s :
  select_session_by_token token ss = Some s -> AuthToken s = token.
Proof.
  unfold select_session_by_token. intros H.
  apply find_some in H. destruct H as [_ H].
  now apply String.eqb_eq.
Qed.


(** After the UPDATE, the first row of a token is the first row it had,
    with the new deadline. *)
Lemma select_update_deadline d token ss s :
  select_session_by_token token ss = Some s ->
  select_session_by_token token (update_deadline d token ss)
  = Some (with_Deadline d s).
Proof.
  unfold select_session_by_token, update_deadline.
  induction ss as [|r ss IH]; simpl; [discriminate|].
  destruct (String.eqb (AuthToken r) token) eqn:Hr; simpl.
  - rewrite Hr. now intros [= ->].
  - rewrite Hr. exact IH.
Qed.

Lemma select_none_intro token ss :
  (forall r, In r ss -> String.eqb (AuthToken r) token = false) ->
  select_session_by_token token ss = None.
Proof.
  unfold select_session_by_token.
  induction ss as [|r ss IH]; simpl; intros H; [reflexivity|].
  rewrite (H r (or_introl eq_refl)). apply IH. intros r' Hr'.
  apply H. now right.
Qed.

(** After [s] went in under the UNIQUE constraints and the sweep ran at
    [now], the token of [s] has a row, [s] itself, iff [s] was not due
    before [now]. *)
Lemma select_after_insert s ss now :
  existsb (session_collides s) ss = false ->
  select_session_by_token (AuthToken s)
    (delete_where (deadline_before now) (ss ++ [s]))
  = if Deadline s <? now then None else Some s.
Proof.
  unfold select_session_by_token, delete_where, deadline_before.
  induction ss as [|r ss IH]; simpl.
  - intros _. destruct (Deadline s <? now); simpl; [reflexivity|].
    now rewrite String.eqb_refl.
  - intros H. apply orb_false_iff in H. destruct H as [Hr Hss].
    unfold session_collides in Hr. apply orb_false_iff in Hr.
    destruct Hr as [_ Hr].
    destruct (Deadline r <? now); simpl; [now apply IH|].
    rewrite Hr. now apply IH.
Qed.

(** A DELETE whose condition no row meets changes nothing. *)
Lemma delete_where_none cond ss :
  any_row cond ss = false -> delete_where cond ss = ss.
Proof.
  unfold any_row, delete_where.
  induction ss as [|r ss IH]; simpl; [reflexivity|].
  intros H. apply orb_false_iff in H. destruct H as [-> H].
  simpl. now rewrite IH.
Qed.

Lemma with_sessions_same t : with_sessions (sessions t) t = t.
Proof. now destruct t. Qed.

Lemma In_delete_where cond ss r :
  In r (delete_where cond ss) <-> In r ss /\ cond r = false.
Proof.
  unfold delete_where. rewrite filter_In.
  destruct (cond r); simpl; intuition congruence.
Qed.

Section Facts.

Variable E : Env.

Lemma scan_session_found token st s :
  fault E (db_ops st) = false ->
  select_session_by_token token (sessions (tabs st)) = Some s ->
  scan_session E token st
  = (Ok s, mkState (tabs st) (clock_reads st) (rand_reads st) (ids_made st)
                   (S (db_ops st))).
Proof.
  intros Hf Hs. unfold scan_session, driver. rewrite Hf, Hs.
  destruct st as [[? ? ?] ? ? ? ?]; reflexivity.
Qed.

Lemma scan_session_missing token st :
  fault E (db_ops st) = false ->
  select_session_by_token token (sessions (tabs st)) = None ->
  scan_session E token st
  = (Err ErrNoRows,
     mkState (tabs st) (clock_reads st) (rand_reads st) (ids_made st)
             (S (db_ops st))).
Proof.
  intros Hf Hs. unfold scan_session, driver. rewrite Hf, Hs.
  destruct st as [[? ? ?] ? ? ? ?]; reflexivity.
Qed.

(** A token without a row does not resolve, whatever the driver does. *)
Lemma QuerySession_no_row token renewTTL st s' :
  select_session_by_token token (sessions (tabs st)) = None ->
  fst (QuerySession E token renewTTL st) <> Ok s'.
Proof.
  intros Hnone. unfold QuerySession, scan_session, driver.
  destruct (fault E (db_ops st)); [simpl; discriminate|].
  rewrite Hnone. simpl. discriminate.
Qed.

(** [QuerySession] on a token that has a row, when the driver answers
    the SELECT. *)
Lemma QuerySession_found token renewTTL st s :
  fault E (db_ops st) = false ->
  select_session_by_token token (sessions (tabs st)) = Some s ->
  QuerySession E token renewTTL st =
  let now := wall E (clock_reads st) in
  let st2 := mkState (tabs st) (S (clock_reads st)) (rand_reads st)
                     (ids_made st) (S (db_ops st)) in
  if UnixNano now >? Deadline s then (Err ErrSessionExpired, st2)
  else
    let d := UnixNano (Time_Add now renewTTL) in
    let st3 := mkState (tabs st) (S (clock_reads st)) (rand_reads st)
                       (ids_made st) (S (S (db_ops st))) in
    if fault E (S (db_ops st))
    then (Err (Wrapped ErrDriver "Failed to renew token"), st3)
    else (Ok (with_Deadline d s),
          with_tabs (with_sessions
                       (update_deadline d (AuthToken s) (sessions (tabs st)))
                       (tabs st)) st3).
Proof.
  intros Hf Hs. unfold QuerySession.
  rewrite (scan_session_found _ _ _ Hf Hs).
  unfold bind, time_Now, raise, wrap_err, exec_update_deadline, driver, ret.
  simpl.
  destruct (UnixNano (wall E (clock_reads st)) >? Deadline s); [reflexivity|].
  simpl. destruct (fault E (S (db_ops st))); reflexivity.
Qed.

(** [insert], statement by statement. *)
Lemma insert_run s st :
  insert E s st =
  let st1 := mkState (tabs st) (clock_reads st) (rand_reads st)
                     (ids_made st) (S (db_ops st)) in
  if fault E (db_ops st)
  then (Err (Wrapped ErrDriver "Failed to save session"), st1)
  else
    match insert_session s (sessions (tabs st)) with
    | Err e => (Err (Wrapped e "Failed to save session"), st1)
    | Ok ss =>
        let sweep_now := UnixNano (wall E (S (clock_reads st))) in
        let st2 t := mkState t (S (S (clock_reads st))) (rand_reads st)
                             (ids_made st) (S (S (db_ops st))) in
        if fault E (S (db_ops st))
        then (Err (Wrapped ErrDriver "Faield to cleanup expired sessions"),
              st2 (with_sessions ss (tabs st)))
        else (Ok tt,
              st2 (with_sessions
                     (delete_where (deadline_before sweep_now) ss)
                     (tabs st)))
    end.
Proof.
  unfold insert, cleanupSession, bind, wrap_err, exec_insert_session,
    exec_delete, time_Now, driver, ret.
  simpl.
  destruct (fault E (db_ops st)); [reflexivity|].
  destruct (insert_session s (sessions (tabs st))) as [ss|e];
    [|reflexivity].
  simpl. destruct (fault E (S (db_ops st))); reflexivity.
Qed.

(** [NewSession], step by step. *)
Lemma NewSession_run username userAgent ttl st :
  NewSession E username userAgent ttl st =
  match entropy E (rand_reads st) with
  | None =>
      (Err (Wrapped (Wrapped ErrEntropy "Failed to generate randomness")
                    "Failed to generate a token"),
       mkState (tabs st) (clock_reads st) (S (rand_reads st))
               (ids_made st) (db_ops st))
  | Some src =>
      (Ok (mkSession (snowflake E (ids_made st)) username
                     (EncodeToString (map src (seq 0 32)))
                     (UnixNano (Time_Add (wall E (clock_reads st)) ttl))
                     userAgent),
       mkState (tabs st) (S (clock_reads st)) (S (rand_reads st))
               (S (ids_made st)) (db_ops st))
  end.
Proof.
  unfold NewSession, randToken, bind, wrap_err, rand_Read,
    sessionIDGen_Generate, time_Now, ret.
  destruct (entropy E (rand_reads st)); reflexivity.
Qed.

(** A row survives the sweep iff its deadline is not before the sweep's
    clock reading. *)
Lemma In_delete_expired now ss r :
  In r (delete_where (deadline_before now) ss) <->
  In r ss /\ ~ Deadline r < now.
Proof.
  unfold delete_where, deadline_before. rewrite filter_In.
  destruct (Z.ltb_spec (Deadline r) now); simpl; intuition (lia || congruence).
Qed.

Lemma insert_session_ok s ss ss' :
  insert_session s ss = Ok ss' ->
  ss' = ss ++ [s] /\ existsb (session_collides s) ss = false.
Proof.
  unfold insert_session.
  destruct (existsb (session_collides s) ss); [discriminate|].
  now intros [= <-].
Qed.

(** The frame of a transaction, step by step. *)
Lemma transaction_run {A} (body : M A) st :
  transaction E body st =
  let st1 := mkState (tabs st) (clock_reads st) (rand_reads st)
                     (ids_made st) (S (db_ops st)) in
  if fault E (db_ops st)
  then ((None, Some (Wrapped ErrDriver "Failed to begin transaction")), st1)
  else
    match body st1 with
    | (Err err, st2) => ((None, Some err), Rollback (tabs st) st2)
    | (Ok a, st2) =>
        let st3 t := mkState t (clock_reads st2) (rand_reads st2)
                             (ids_made st2) (S (db_ops st2)) in
        if fault E (db_ops st2)
        then ((Some a, Some ErrDriver), st3 (tabs st))
        else ((Some a, None), st3 (tabs st2))
    end.
Proof.
  unfold transaction, BeginTx, Commit, driver. simpl.
  destruct (fault E (db_ops st)); [reflexivity|]. simpl.
  destruct st as [t c r i k]. simpl.
  destruct (body _) as [[a|e] st2]; [|reflexivity].
  destruct (fault E (db_ops st2)); [reflexivity|].
  destruct st2 as [t2 c2 r2 i2 k2]. reflexivity.
Qed.

(** Whatever the body does, a transaction that reports an error leaves
    the committed tables as they were. *)
Lemma transaction_error_restores {A} (body : M A) st :
  snd (fst (transaction E body st)) <> None ->
  tabs (snd (transaction E body st)) = tabs st.
Proof.
  rewrite transaction_run. cbv zeta.
  destruct (fault E (db_ops st)); [reflexivity|].
  destruct (body _) as [[a|e] st2]; [|reflexivity].
  destruct (fault E (db_ops st2)); [reflexivity|].
  simpl. congruence.
Qed.

(** The statements of [Signin], step by step. *)
Lemma Signin_tx_run ttl user pass UA st :
  Signin_tx E ttl user pass UA st =
  let st1 := mkState (tabs st) (clock_reads st) (rand_reads st)
                     (ids_made st) (S (db_ops st)) in
  if fault E (db_ops st)
  then (Err (Wrapped ErrDriver "Failed to scan for password"), st1)
  else
    match select_passhash user (users (tabs st)) with
    | None => (Err ErrInvalidPassword, st1)
    | Some passhash =>
        if bcrypt_matches E passhash pass
        then
          match NewSession E user UA ttl st1 with
          | (Err err, st2) => (Err err, st2)
          | (Ok s, st2) =>
              match insert E s st2 with
              | (Err err, st3) => (Err err, st3)
              | (Ok _, st3) => (Ok s, st3)
              end
          end
        else (Err ErrInvalidPassword, st1)
    end.
Proof.
  unfold Signin_tx, scan_passhash, driver. cbv zeta.
  destruct (fault E (db_ops st)); [reflexivity|].
  destruct (select_passhash user (users (tabs st))) as [h|]; simpl.
  - unfold bind at 1. unfold VerifyPassword.
    destruct (bcrypt_matches E h pass); simpl.
    + destruct st as [[ss us ts] c r i k]. simpl.
      unfold bind, ret.
      destruct (NewSession _ _ _ _ _) as [[s|e] st2]; [|reflexivity].
      destruct (insert E s st2) as [[[]|e] st3]; reflexivity.
    + destruct st as [[ss us ts] c r i k]. reflexivity.
  - destruct st as [[ss us ts] c r i k]. reflexivity.
Qed.

Lemma bind_run {A B} (m : M A) (k : A -> M B) st :
  bind m k st =
  match m st with
  | (Ok a, st') => k a st'
  | (Err e, st') => (Err e, st')
  end.
Proof. reflexivity. Qed.

Lemma useToken_run token st :
  useToken E token st =
  let st1 t := mkState t (clock_reads st) (rand_reads st)
                       (ids_made st) (S (db_ops st)) in
  if fault E (db_ops st)
  then (Err (Wrapped ErrDriver "Failed to consume token"), st1 (tabs st))
  else
    let t1 := with_tokens (consume_invite token (tokens (tabs st)))
                          (tabs st) in
    if existsb (invite_usable token) (tokens (tabs st))
    then (Ok tt, st1 t1)
    else (Err ErrInvalidToken, st1 t1).
Proof.
  unfold useToken, bind, wrap_err, driver, ret, raise. cbv zeta.
  destruct (fault E (db_ops st)); [reflexivity|]. simpl.
  destruct (existsb (invite_usable token) (tokens (tabs st))); reflexivity.
Qed.

Lemma User_insert_run u st :
  User_insert E u st =
  let st1 t := mkState t (clock_reads st) (rand_reads st)
                       (ids_made st) (S (db_ops st)) in
  if fault E (db_ops st)
  then (Err (Wrapped ErrDriver "Failed to save user"), st1 (tabs st))
  else if username_taken (user_name u) (users (tabs st))
  then (Err ErrUsernameTaken, st1 (tabs st))
  else (Ok tt, st1 (with_users (users (tabs st) ++ [u]) (tabs st))).
Proof.
  unfold User_insert, driver. cbv zeta.
  destruct (fault E (db_ops st)); [reflexivity|].
  destruct (username_taken (user_name u) (users (tabs st))); reflexivity.
Qed.

(** The statements of [Signup], step by step. *)
Lemma Signup_tx_run ttl user pass token UA st :
  Signup_tx E ttl user pass token UA st =
  let st1 t := mkState t (clock_reads st) (rand_reads st)
                       (ids_made st) (S (db_ops st)) in
  if fault E (db_ops st)
  then (Err (Wrapped ErrDriver "Failed to consume token"), st1 (tabs st))
  else
    let t1 := with_tokens (consume_invite token (tokens (tabs st)))
                          (tabs st) in
    if existsb (invite_usable token) (tokens (tabs st))
    then
      match bcrypt_hash E pass with
      | None => (Err (Wrapped ErrBcrypt "Failed to generate password"),
                 st1 t1)
      | Some h =>
          let st2 t := mkState t (clock_reads st) (rand_reads st)
                               (ids_made st) (S (S (db_ops st))) in
          if fault E (S (db_ops st))
          then (Err (Wrapped ErrDriver "Failed to save user"), st2 t1)
          else if username_taken user (users (tabs st))
          then (Err ErrUsernameTaken, st2 t1)
          else
            let u := mkUser user h PermissionNormal in
            let t2 := with_users (users (tabs st) ++ [u]) t1 in
            match NewSession E user UA ttl (st2 t2) with
            | (Err err, st3) => (Err err, st3)
            | (Ok s, st3) =>
                match insert E s st3 with
                | (Err err, st4) => (Err err, st4)
                | (Ok _, st4) => (Ok s, st4)
                end
            end
      end
    else (Err ErrInvalidToken, st1 t1)
  .
Proof.
  unfold Signup_tx. cbv zeta.
  rewrite bind_run, useToken_run. cbv zeta.
  destruct (fault E (db_ops st)); [reflexivity|].
  destruct (existsb (invite_usable token) (tokens (tabs st)));
    [|reflexivity].
  rewrite bind_run. unfold NewUser.
  destruct (bcrypt_hash E pass) as [h|]; [|reflexivity].
  unfold ret at 1. rewrite bind_run, User_insert_run. simpl.
  destruct (fault E (S (db_ops st))); [reflexivity|].
  destruct (username_taken user (users (tabs st))); [reflexivity|].
  rewrite bind_run.
  destruct (NewSession _ _ _ _ _) as [[s|e] st3]; [|reflexivity].
  rewrite bind_run.
  destruct (insert E s st3) as [[[]|e] st4]; reflexivity.
Qed.

(** [DeleteSessionID], step by step. *)
Lemma DeleteSessionID_run session id st :
  DeleteSessionID E session id st =
  let cond := has_id_and_username id (Username session) in
  let st1 t := mkState t (clock_reads st) (rand_reads st)
                       (ids_made st) (S (db_ops st)) in
  if fault E (db_ops st)
  then (Err (Wrapped ErrDriver "Failed to delete token with ID"),
        st1 (tabs st))
  else
    let t1 := with_sessions (delete_where cond (sessions (tabs st)))
                            (tabs st) in
    if any_row cond (sessions (tabs st))
    then (Ok tt, st1 t1)
    else (Err ErrSessionNotFound, st1 t1).
Proof.
  unfold DeleteSessionID, execChanged, bind, wrap_err, driver, ret, raise.
  cbv zeta.
  destruct (fault E (db_ops st)); [reflexivity|]. st_simpl.
  destruct (any_row _ _); reflexivity.
Qed.

End Facts.

(** ** Lookup and renewal *)

(** C1 (as amended).  A stored session whose deadline has not passed
    resolves to a session with the id, username, token and user agent of
    the stored row and with a new deadline; the UPDATE stores that
    deadline in every row of the token, so that looking the token up
    again finds the returned session.  The new deadline is the [int64]
    of the clock reading taken at resolution plus [renewTTL]: that sum
    itself whenever it fits an [int64], and the sum wrapped by 2^64
    otherwise.  It does not depend on the old deadline. *)
Theorem QuerySession_renews_from_now
    (E : Env) (st : State) (token : string) (renewTTL : Duration)
    (s : Session) :
  select_session_by_token token (sessions (tabs st)) = Some s ->
  fault E (db_ops st) = false ->
  fault E (S (db_ops st)) = false ->
  UnixNano (wall E (clock_reads st)) <= Deadline s ->
  let now := wall E (clock_reads st) in
  let st' := snd (QuerySession E token renewTTL st) in
  exists s',
    fst (QuerySession E token renewTTL st) = Ok s' /\
    Deadline s' = (now + renewTTL + 2 ^ 63) mod 2 ^ 64 - 2 ^ 63 /\
    (- 2 ^ 63 <= now + renewTTL < 2 ^ 63 -> Deadline s' = now + renewTTL) /\
    ID s' = ID s /\ Username s' = Username s /\
    AuthToken s' = AuthToken s /\ UserAgent s' = UserAgent s /\
    select_session_by_token token (sessions (tabs st')) = Some s' /\
    (forall row, In row (sessions (tabs st')) -> AuthToken row = token ->
       Deadline row = Deadline s') /\
    List.length (sessions (tabs st')) = List.length (sessions (tabs st)).
Proof.
  intros Hs Hf1 Hf2 Hlive now st'.
  subst st'. rewrite (QuerySession_found E _ _ _ _ Hf1 Hs).
  cbv zeta. fold now.
  destruct (Z.gtb_spec (UnixNano now) (Deadline s)); [unfold now in *; lia|].
  rewrite Hf2. st_simpl.
  pose proof (find_token_AuthToken _ _ _ Hs) as Htoken.
  set (d := UnixNano (Time_Add now renewTTL)).
  assert (Hd : d = (now + renewTTL + 2 ^ 63) mod 2 ^ 64 - 2 ^ 63)
    by reflexivity.
  exists (with_Deadline d s). cbn [Deadline ID Username AuthToken UserAgent
                                  with_Deadline].
  split; [reflexivity|]. split; [exact Hd|]. split.
  { intros Hrange. rewrite Hd. rewrite Z.mod_small by lia. lia. }
  do 4 (split; [reflexivity|]). rewrite Htoken. split; [|split].
  - now apply select_update_deadline.
  - intros row Hin Htok. unfold update_deadline in Hin.
    apply in_map_iff in Hin. destruct Hin as [r [Hr _]].
    destruct (String.eqb_spec (AuthToken r) token) as [_|Hne].
    + now subst row.
    + subst row. contradiction.
  - unfold update_deadline. apply length_map.
Qed.

(** The spec's example: a session made at noon to last an hour, resolved
    at half past twelve with [renewTTL] of an hour, has its deadline at
    half past one, not at two. *)
Lemma QuerySession_renews_from_now_witness :
  exists s',
    fst (QuerySession Sample.env "tok-alice" Sample.hour
           (mkState Sample.tables 1 0 0 0)) = Ok s' /\
    Deadline s' = 12 * Sample.hour + Sample.hour / 2 + Sample.hour /\
    select_session_by_token "tok-alice"
      (sessions (tabs (snd (QuerySession Sample.env "tok-alice" Sample.hour
                              (mkState Sample.tables 1 0 0 0))))) = Some s'.
Proof.
  destruct (QuerySession_renews_from_now Sample.env
              (mkState Sample.tables 1 0 0 0) "tok-alice" Sample.hour
              Sample.alice_phone eq_refl eq_refl eq_refl
              ltac:(vm_compute; discriminate))
    as [s' [Hq [_ [Hsum [_ [_ [_ [_ [Hsel _]]]]]]]]].
  exists s'. split; [exact Hq|]. split; [|exact Hsel].
  apply Hsum. vm_compute. split; [discriminate|reflexivity].
Defined.

(** The claim as worded, with the plain sum for every [renewTTL], fails
    where the sum leaves the [int64]: Alice's session, resolved at noon
    with the longest [time.Duration] there is, gets a deadline that is
    not noon plus that duration. *)
Lemma QuerySession_plain_sum_counterexample :
  exists s',
    select_session_by_token "tok-alice" (sessions (tabs Sample.start))
    = Some Sample.alice_phone /\
    UnixNano (wall Sample.env (clock_reads Sample.start))
    <= Deadline Sample.alice_phone /\
    fst (QuerySession Sample.env "tok-alice" (2 ^ 63 - 1) Sample.start)
    = Ok s' /\
    Deadline s'
    <> wall Sample.env (clock_reads Sample.start) + (2 ^ 63 - 1) /\
    Deadline s' < 0.
Proof.
  exists (with_Deadline (12 * Sample.hour + (2 ^ 63 - 1) - 2 ^ 64)
                        Sample.alice_phone).
  split; [reflexivity|]. split; [vm_compute; discriminate|].
  split; [vm_compute; reflexivity|].
  split; [vm_compute; discriminate|vm_compute; reflexivity].
Qed.

(** C2.  A token that has no row resolves to [ErrSessionExpired], which
    is what an expired session resolves to, and which is not
    [ErrSessionNotFound]. *)
Theorem QuerySession_unknown_token_is_expired
    (E : Env) (st : State) (token : string) (renewTTL : Duration) :
  select_session_by_token token (sessions (tabs st)) = None ->
  fault E (db_ops st) = false ->
  fst (QuerySession E token renewTTL st) = Err ErrSessionExpired /\
  fst (QuerySession E token renewTTL st) <> Err ErrSessionNotFound /\
  tabs (snd (QuerySession E token renewTTL st)) = tabs st /\
  forall (st2 : State) (token2 : string) (ttl2 : Duration) (s2 : Session),
    select_session_by_token token2 (sessions (tabs st2)) = Some s2 ->
    fault E (db_ops st2) = false ->
    UnixNano (wall E (clock_reads st2)) > Deadline s2 ->
    fst (QuerySession E token2 ttl2 st2)
    = fst (QuerySession E token renewTTL st).
Proof.
  intros Hnone Hf.
  assert (Hq : fst (QuerySession E token renewTTL st) = Err ErrSessionExpired
               /\ tabs (snd (QuerySession E token renewTTL st)) = tabs st).
  { unfold QuerySession. rewrite (scan_session_missing E _ _ Hf Hnone).
    simpl. split; reflexivity. }
  destruct Hq as [Hq Ht]. rewrite Hq. repeat split.
  - discriminate.
  - exact Ht.
  - intros st2 token2 ttl2 s2 Hs2 Hf2 Hexp.
    rewrite (QuerySession_found E _ _ _ _ Hf2 Hs2). cbv zeta.
    destruct (Z.gtb_spec (UnixNano (wall E (clock_reads st2))) (Deadline s2));
      [reflexivity|lia].
Qed.

Lemma QuerySession_unknown_token_is_expired_witness :
  fst (QuerySession Sample.env "forged" Sample.hour Sample.start)
  = Err ErrSessionExpired.
Proof.
  exact (proj1 (QuerySession_unknown_token_is_expired Sample.env Sample.start
                  "forged" Sample.hour eq_refl eq_refl)).
Defined.



(** ** Creation and the expiry sweep *)

(** C5.  When the driver answers both statements and the new row meets
    no UNIQUE constraint, [insert] succeeds: the INSERT stores the row at
    the end of the table, and the sweep that follows in the same
    transaction leaves the rows the table had and the new row, less
    exactly those whose deadline is strictly before the clock reading
    taken by the sweep; the other tables are untouched.  Whenever
    [insert] succeeds the table is that.  When the INSERT went through
    and the driver fails on the sweep's DELETE, [insert] returns that
    failure; and a [Signin] or [Signup] whose driver fails on that round
    trip (the fourth and the fifth of the transaction) returns an error
    and no session, and leaves the committed tables as they were. *)
Theorem insert_sweeps_in_transaction (E : Env) (s : Session) (st : State) :
  let sweep_now := UnixNano (wall E (S (clock_reads st))) in
  (fault E (db_ops st) = false ->
   existsb (session_collides s) (sessions (tabs st)) = false ->
   fault E (S (db_ops st)) = false ->
   let t' := tabs (snd (insert E s st)) in
   fst (insert E s st) = Ok tt /\
   sessions (tabs (snd (exec_insert_session E s st)))
   = sessions (tabs st) ++ [s] /\
   sessions t'
   = filter (fun r => negb (Deadline r <? sweep_now))
       (sessions (tabs (snd (exec_insert_session E s st)))) /\
   (forall r, In r (sessions t') <->
              (In r (sessions (tabs st)) \/ r = s) /\
              ~ Deadline r < sweep_now) /\
   users t' = users (tabs st) /\ tokens t' = tokens (tabs st)) /\
  (fst (insert E s st) = Ok tt ->
   let t' := tabs (snd (insert E s st)) in
   sessions t'
   = delete_where (deadline_before sweep_now) (sessions (tabs st) ++ [s]) /\
   (forall r, In r (sessions t') <->
              (In r (sessions (tabs st)) \/ r = s) /\
              ~ Deadline r < sweep_now) /\
   users t' = users (tabs st) /\ tokens t' = tokens (tabs st)) /\
  (fault E (db_ops st) = false ->
   existsb (session_collides s) (sessions (tabs st)) = false ->
   fault E (S (db_ops st)) = true ->
   fst (insert E s st)
   = Err (Wrapped ErrDriver "Faield to cleanup expired sessions")) /\
  (forall ttl user pass UA,
     fault E (S (S (S (db_ops st)))) = true ->
     exists err,
       fst (Signin E ttl user pass UA st) = (None, Some err) /\
       tabs (snd (Signin E ttl user pass UA st)) = tabs st) /\
  (forall ttl user pass token UA,
     fault E (S (S (S (S (db_ops st))))) = true ->
     exists err,
       fst (Signup E ttl user pass token UA st) = (None, Some err) /\
       tabs (snd (Signup E ttl user pass token UA st)) = tabs st) /\
  (forall ttl user pass UA passhash src,
     fault E (db_ops st) = false ->
     fault E (S (db_ops st)) = false ->
     fault E (S (S (db_ops st))) = false ->
     fault E (S (S (S (db_ops st)))) = true ->
     select_passhash user (users (tabs st)) = Some passhash ->
     bcrypt_matches E passhash pass = true ->
     entropy E (rand_reads st) = Some src ->
     existsb (session_collides
                (mkSession (snowflake E (ids_made st)) user
                   (EncodeToString (map src (seq 0 32)))
                   (UnixNano (Time_Add (wall E (clock_reads st)) ttl)) UA))
             (sessions (tabs st)) = false ->
     fst (Signin E ttl user pass UA st)
     = (None, Some (Wrapped ErrDriver "Faield to cleanup expired sessions"))).
Proof.
  intros sweep_now. split; [|split; [|split; [|split; [|split]]]].
  - intros Hf Hfree Hsweep.
    assert (Hstored : sessions (tabs (snd (exec_insert_session E s st)))
                      = sessions (tabs st) ++ [s]).
    { unfold exec_insert_session, driver, insert_session.
      rewrite Hf, Hfree. reflexivity. }
    rewrite Hstored. rewrite insert_run. cbv zeta. fold sweep_now.
    unfold insert_session. rewrite Hf, Hfree, Hsweep. st_simpl.
    split; [reflexivity|]. split; [reflexivity|]. split; [reflexivity|].
    split; [|split; reflexivity].
    intros r. rewrite In_delete_expired, in_app_iff. cbn [In].
    intuition congruence.
  - rewrite insert_run. cbv zeta. fold sweep_now.
    destruct (fault E (db_ops st)); [discriminate|].
    destruct (insert_session s (sessions (tabs st))) as [ss|e] eqn:Hins;
      [|discriminate].
    destruct (fault E (S (db_ops st))); [discriminate|].
    apply insert_session_ok in Hins. destruct Hins as [-> _].
    st_simpl. intros _. split; [reflexivity|]. split; [|split; reflexivity].
    intros r. rewrite In_delete_expired, in_app_iff. cbn [In].
    intuition congruence.
  - intros Hf Hfree Hsweep. rewrite insert_run. cbv zeta.
    unfold insert_session. now rewrite Hf, Hfree, Hsweep.
  - intros ttl user pass UA Hsweep. unfold Signin.
    rewrite transaction_run. cbv zeta.
    destruct (fault E (db_ops st)); [st_simpl; eauto|].
    rewrite Signin_tx_run. cbv zeta. st_simpl.
    destruct (fault E (S (db_ops st))); [st_simpl; eauto|].
    destruct (select_passhash user (users (tabs st))); [|st_simpl; eauto].
    destruct (bcrypt_matches E l pass); [|st_simpl; eauto].
    rewrite NewSession_run. st_simpl.
    destruct (entropy E (rand_reads st)); [|st_simpl; eauto].
    rewrite insert_run. cbv zeta. st_simpl.
    destruct (fault E (S (S (db_ops st)))); [st_simpl; eauto|].
    destruct (insert_session _ _); [|st_simpl; eauto].
    rewrite Hsweep. st_simpl. eauto.
  - intros ttl user pass token UA Hsweep. unfold Signup.
    rewrite transaction_run. cbv zeta.
    destruct (fault E (db_ops st)); [st_simpl; eauto|].
    rewrite Signup_tx_run. cbv zeta. st_simpl.
    destruct (fault E (S (db_ops st))); [st_simpl; eauto|].
    destruct (existsb (invite_usable token) (tokens (tabs st)));
      [|st_simpl; eauto].
    destruct (bcrypt_hash E pass); [|st_simpl; eauto].
    destruct (fault E (S (S (db_ops st)))); [st_simpl; eauto|].
    destruct (username_taken user (users (tabs st))); [st_simpl; eauto|].
    rewrite NewSession_run. st_simpl.
    destruct (entropy E (rand_reads st)); [|st_simpl; eauto].
    rewrite insert_run. cbv zeta. st_simpl.
    destruct (fault E (S (S (S (db_ops st))))); [st_simpl; eauto|].
    destruct (insert_session _ _); [|st_simpl; eauto].
    rewrite Hsweep. st_simpl. eauto.
  - intros ttl user pass UA passhash src Hf0 Hf1 Hf2 Hsweep Hh Hpw Hent Hfree.
    unfold Signin. rewrite transaction_run. cbv zeta. rewrite Hf0.
    rewrite Signin_tx_run. cbv zeta. st_simpl. rewrite Hf1, Hh, Hpw.
    rewrite NewSession_run. st_simpl. rewrite Hent.
    rewrite insert_run. cbv zeta. st_simpl. rewrite Hf2.
    unfold insert_session. rewrite Hfree, Hsweep. reflexivity.
Qed.

(** Alice's new session, due at two, goes into the sample table; the
    sweep runs at one and removes Bob's and Carol's sessions, due at noon
    and at eleven.  Then three runs in which the driver fails on the
    sweep. *)
Lemma insert_sweeps_in_transaction_witness :
  (fst (insert Sample.env Sample.alice_new Sample.after_NewSession) = Ok tt /\
   sessions (tabs (snd (insert Sample.env Sample.alice_new
                          Sample.after_NewSession)))
   = [Sample.alice_phone; Sample.alice_new]) /\
  fst (insert (Sample.env_fault_at 1) Sample.alice_new
         Sample.after_NewSession)
  = Err (Wrapped ErrDriver "Faield to cleanup expired sessions") /\
  fst (Signin (Sample.env_fault_at 3) Sample.hour "alice" "secret" "UA"
         Sample.start)
  = (None, Some (Wrapped ErrDriver "Faield to cleanup expired sessions")) /\
  exists err,
    fst (Signup (Sample.env_fault_at 4) Sample.hour "dave" "pw" "fresh" "UA"
           Sample.start) = (None, Some err) /\
    tabs (snd (Signup (Sample.env_fault_at 4) Sample.hour "dave" "pw" "fresh"
                 "UA" Sample.start)) = tabs Sample.start.
Proof.
  split; [|split; [|split]].
  - destruct (proj1 (insert_sweeps_in_transaction Sample.env
                       Sample.alice_new Sample.after_NewSession)
                eq_refl eq_refl eq_refl) as [Hok [_ [Hswept _]]].
    split; [exact Hok|]. rewrite Hswept. vm_compute. reflexivity.
  - exact (proj1 (proj2 (proj2 (insert_sweeps_in_transaction
                           (Sample.env_fault_at 1) Sample.alice_new
                           Sample.after_NewSession)))
                 eq_refl eq_refl eq_refl).
  - exact (proj2 (proj2 (proj2 (proj2 (proj2 (insert_sweeps_in_transaction
                                         (Sample.env_fault_at 3)
                                         Sample.carol_old Sample.start)))))
                 Sample.hour "alice" "secret" "UA" Sample.hash_of_secret _
                 eq_refl eq_refl eq_refl eq_refl eq_refl eq_refl eq_refl
                 ltac:(vm_compute; reflexivity)).
  - exact (proj1 (proj2 (proj2 (proj2 (proj2 (insert_sweeps_in_transaction
                                         (Sample.env_fault_at 4)
                                         Sample.carol_old Sample.start)))))
                 Sample.hour "dave" "pw" "fresh" "UA" eq_refl).
Defined.

(** C9.  A session made by [NewSession] and stored by [insert], looked
    up by its token while its deadline has not passed, comes back with
    the id, username, token and user agent it was made with; only the
    deadline is renewed.  The clock is taken not to run backwards between
    the sweep of the insert and the lookup. *)
Theorem created_session_round_trip
    (E : Env) (user UA : string) (ttl renewTTL : Duration)
    (st st1 st2 : State) (s : Session) :
  NewSession E user UA ttl st = (Ok s, st1) ->
  insert E s st1 = (Ok tt, st2) ->
  UnixNano (wall E (S (clock_reads st1)))
  <= UnixNano (wall E (clock_reads st2)) ->
  fault E (db_ops st2) = false ->
  fault E (S (db_ops st2)) = false ->
  UnixNano (wall E (clock_reads st2)) <= Deadline s ->
  exists s',
    fst (QuerySession E (AuthToken s) renewTTL st2) = Ok s' /\
    ID s' = ID s /\ Username s' = Username s /\
    AuthToken s' = AuthToken s /\ UserAgent s' = UserAgent s /\
    Deadline s'
    = UnixNano (Time_Add (wall E (clock_reads st2)) renewTTL).
Proof.
  intros _ Hins Hswept Hf1 Hf2 Hlive.
  assert (Hsel : select_session_by_token (AuthToken s) (sessions (tabs st2))
                 = Some s).
  { rewrite insert_run in Hins. cbv zeta in Hins.
    destruct (fault E (db_ops st1)); [discriminate|].
    destruct (insert_session s (sessions (tabs st1))) as [ss|e] eqn:Hi;
      [|discriminate].
    destruct (fault E (S (db_ops st1))); [discriminate|].
    injection Hins as <-. simpl.
    apply insert_session_ok in Hi. destruct Hi as [-> Hfree].
    rewrite (select_after_insert _ _ _ Hfree).
    destruct (Z.ltb_spec (Deadline s)
                (UnixNano (wall E (S (clock_reads st1))))); [lia|reflexivity]. }
  rewrite (QuerySession_found E _ _ _ _ Hf1 Hsel). cbv zeta.
  destruct (Z.gtb_spec (UnixNano (wall E (clock_reads st2))) (Deadline s));
    [lia|].
  rewrite Hf2. simpl. eexists. split; [reflexivity|]. simpl. tauto.
Qed.

(** Alice's session is made at noon to last two hours; the sweep runs at
    one, the lookup at half past one. *)
Lemma created_session_round_trip_witness :
  exists s',
    fst (QuerySession Sample.env (AuthToken Sample.alice_new) Sample.hour
           Sample.after_insert) = Ok s' /\
    ID s' = ID Sample.alice_new /\
    Username s' = Username Sample.alice_new /\
    AuthToken s' = AuthToken Sample.alice_new /\
    UserAgent s' = UserAgent Sample.alice_new /\
    Deadline s' = 14 * Sample.hour + Sample.hour / 2.
Proof.
  exact (created_session_round_trip Sample.env "alice" "UA"
           (2 * Sample.hour) Sample.hour Sample.start
           Sample.after_NewSession Sample.after_insert Sample.alice_new
           ltac:(vm_compute; reflexivity) ltac:(vm_compute; reflexivity)
           ltac:(vm_compute; discriminate) eq_refl eq_refl
           ltac:(vm_compute; discriminate)).
Defined.

(** C10.  In a sign-in whose steps all go through, the INSERT stores
    the new session and the sweep then runs on the table with it, at a
    clock reading of its own: the third of the sign-in, the first being
    the one the deadline was computed from.  The committed table is the
    old rows and the new one, less those due before that reading; the
    sign-in returns the new session and no error either way.  So a
    session that is not due before the sweep's reading is there and
    resolves by its token, and one that is due before it is gone: no row
    bears the returned token and resolving it fails.  The latter is the
    case for every lifespan [ttl <= 0] once the clock has advanced
    between the two readings, and for every negative one under a clock
    that does not run backwards. *)
Theorem Signin_returns_swept_session
    (E : Env) (ttl : Duration) (user pass UA : string) (st : State)
    (passhash : list Byte.byte) (src : nat -> Byte.byte) :
  (forall n, (n < 5)%nat -> fault E (n + db_ops st) = false) ->
  select_passhash user (users (tabs st)) = Some passhash ->
  bcrypt_matches E passhash pass = true ->
  entropy E (rand_reads st) = Some src ->
  let made_at := wall E (clock_reads st) in
  let swept_at := wall E (S (S (clock_reads st))) in
  let s := mkSession (snowflake E (ids_made st)) user
                     (EncodeToString (map src (seq 0 32)))
                     (UnixNano (Time_Add made_at ttl)) UA in
  existsb (session_collides s) (sessions (tabs st)) = false ->
  let at_insert := mkState (tabs st) (S (clock_reads st)) (S (rand_reads st))
                           (S (ids_made st)) (S (S (db_ops st))) in
  let st' := snd (Signin E ttl user pass UA st) in
  fst (Signin E ttl user pass UA st) = (Some s, None) /\
  sessions (tabs (snd (exec_insert_session E s at_insert)))
  = sessions (tabs st) ++ [s] /\
  sessions (tabs st')
  = filter (fun r => negb (Deadline r <? UnixNano swept_at))
      (sessions (tabs st) ++ [s]) /\
  (~ Deadline s < UnixNano swept_at ->
   In s (sessions (tabs st')) /\
   select_session_by_token (AuthToken s) (sessions (tabs st')) = Some s) /\
  (Deadline s < UnixNano swept_at ->
   ~ In s (sessions (tabs st')) /\
   select_session_by_token (AuthToken s) (sessions (tabs st')) = None /\
   forall renewTTL s',
     fst (QuerySession E (AuthToken s) renewTTL st') <> Ok s') /\
  (ttl <= 0 ->
   int64_range (made_at + ttl) -> int64_range swept_at ->
   made_at <= swept_at -> ttl < 0 \/ made_at < swept_at ->
   Deadline s < UnixNano swept_at).
Proof.
  intros Hf Hh Hpw Hent made_at swept_at s Hfree at_insert st'.
  pose proof (Hf 0%nat ltac:(lia)) as Hf0.
  pose proof (Hf 1%nat ltac:(lia)) as Hf1.
  pose proof (Hf 2%nat ltac:(lia)) as Hf2.
  pose proof (Hf 3%nat ltac:(lia)) as Hf3.
  pose proof (Hf 4%nat ltac:(lia)) as Hf4.
  simpl in Hf0, Hf1, Hf2, Hf3, Hf4.
  assert (Hrun : Signin E ttl user pass UA st =
    ((Some s, None),
     mkState (with_sessions
                (delete_where (deadline_before (UnixNano swept_at))
                   (sessions (tabs st) ++ [s])) (tabs st))
             (S (S (S (clock_reads st)))) (S (rand_reads st))
             (S (ids_made st)) (S (S (S (S (S (db_ops st)))))))).
  { unfold Signin. rewrite transaction_run. cbv zeta. rewrite Hf0.
    rewrite Signin_tx_run. cbv zeta. st_simpl. rewrite Hf1, Hh, Hpw.
    rewrite NewSession_run. st_simpl. rewrite Hent. fold made_at. fold s.
    rewrite insert_run. cbv zeta. st_simpl. rewrite Hf2.
    unfold insert_session. rewrite Hfree. rewrite Hf3. st_simpl.
    rewrite Hf4. reflexivity. }
  subst st'. rewrite Hrun. st_simpl.
  pose proof (select_after_insert s (sessions (tabs st))
                (UnixNano swept_at) Hfree) as Hsel.
  split; [reflexivity|]. split; [|split; [reflexivity|split; [|split]]].
  - unfold exec_insert_session, driver, insert_session, at_insert.
    st_simpl. rewrite Hf2, Hfree. reflexivity.
  - intros Hlive. split.
    + apply In_delete_expired. split; [|exact Hlive].
      apply in_app_iff. right. now left.
    + rewrite Hsel.
      destruct (Z.ltb_spec (Deadline s) (UnixNano swept_at));
        [contradiction|reflexivity].
  - intros Hdue.
    assert (Hnone : select_session_by_token (AuthToken s)
              (delete_where (deadline_before (UnixNano swept_at))
                 (sessions (tabs st) ++ [s])) = None).
    { rewrite Hsel.
      destruct (Z.ltb_spec (Deadline s) (UnixNano swept_at));
        [reflexivity|lia]. }
    split; [|split].
    + intros Hin. apply In_delete_expired in Hin. lia.
    + exact Hnone.
    + intros renewTTL s'. now apply QuerySession_no_row.
  - intros Httl Hmade Hswept Hmono Hstrict.
    cbn [Deadline s]. unfold UnixNano, Time_Add.
    rewrite (wrap64_id _ Hmade), (wrap64_id _ Hswept). lia.
Qed.

(** Alice signs in at noon; the sweep reads the clock at one.  Under a
    lifespan of zero the returned token has no row; under one of two
    hours it has, the returned session. *)
Lemma Signin_returns_swept_session_witness :
  (exists s,
     fst (Signin Sample.env 0 "alice" "secret" "UA" Sample.start)
     = (Some s, None) /\
     select_session_by_token (AuthToken s)
       (sessions (tabs (snd (Signin Sample.env 0 "alice" "secret" "UA"
                               Sample.start)))) = None) /\
  fst (Signin Sample.env (2 * Sample.hour) "alice" "secret" "UA"
         Sample.start) = (Some Sample.alice_new, None) /\
  select_session_by_token (AuthToken Sample.alice_new)
    (sessions (tabs (snd (Signin Sample.env (2 * Sample.hour) "alice"
                            "secret" "UA" Sample.start))))
  = Some Sample.alice_new.
Proof.
  split.
  - destruct (Signin_returns_swept_session Sample.env 0 "alice" "secret"
                "UA" Sample.start Sample.hash_of_secret _
                (fun _ _ => eq_refl) eq_refl eq_refl eq_refl eq_refl)
      as [Hs [_ [_ [_ [Hswept Hzero]]]]].
    eexists. split; [exact Hs|].
    refine (proj1 (proj2 (Hswept (Hzero _ _ _ _ _)))).
    + vm_compute. discriminate.
    + vm_compute. split; [discriminate|reflexivity].
    + vm_compute. split; [discriminate|reflexivity].
    + vm_compute. discriminate.
    + right. vm_compute. reflexivity.
  - destruct (Signin_returns_swept_session Sample.env (2 * Sample.hour)
                "alice" "secret" "UA" Sample.start Sample.hash_of_secret _
                (fun _ _ => eq_refl) eq_refl eq_refl eq_refl eq_refl)
      as [Hs [_ [_ [Hlive _]]]].
    split; [exact Hs|].
    refine (proj2 (Hlive _)).
    intros H. vm_compute in H. discriminate H.
Defined.

(** ** Sign-in and sign-up *)

(** C6.  Signing in under a name that has no user row and signing in
    under a name whose stored hash does not match the password end the
    same way: no session, [ErrInvalidPassword], and the same final state
    of the database. *)
Theorem Signin_unknown_user_as_wrong_password
    (E : Env) (ttl : Duration) (st : State)
    (nobody user pass pass' UA UA' : string) (passhash : list Byte.byte) :
  fault E (db_ops st) = false ->
  fault E (S (db_ops st)) = false ->
  select_passhash nobody (users (tabs st)) = None ->
  select_passhash user (users (tabs st)) = Some passhash ->
  bcrypt_matches E passhash pass' = false ->
  fst (Signin E ttl nobody pass UA st) = (None, Some ErrInvalidPassword) /\
  fst (Signin E ttl user pass' UA' st) = (None, Some ErrInvalidPassword) /\
  Signin E ttl nobody pass UA st = Signin E ttl user pass' UA' st /\
  tabs (snd (Signin E ttl user pass' UA' st)) = tabs st.
Proof.
  intros Hf0 Hf1 Hnone Hsome Hbad.
  unfold Signin. rewrite !transaction_run. cbv zeta.
  rewrite Hf0, !Signin_tx_run. cbv zeta. st_simpl.
  rewrite Hf1, Hnone, Hsome, Hbad. st_simpl. repeat split.
Qed.

Lemma Signin_unknown_user_as_wrong_password_witness :
  fst (Signin Sample.env Sample.hour "mallory" "secret" "UA" Sample.start)
  = (None, Some ErrInvalidPassword) /\
  fst (Signin Sample.env Sample.hour "alice" "guess" "UA" Sample.start)
  = (None, Some ErrInvalidPassword).
Proof.
  pose proof (Signin_unknown_user_as_wrong_password Sample.env Sample.hour
                Sample.start "mallory" "alice" "secret" "guess" "UA" "UA"
                Sample.hash_of_secret eq_refl eq_refl eq_refl eq_refl eq_refl)
    as [H1 [H2 _]].
  exact (conj H1 H2).
Defined.

(** C3.  A sign-up that returns an error leaves the committed tables as
    they were: the invite token keeps its uses and there is no new user
    or session row, at whichever step the error arose.  In particular a
    sign-up with an invite token that has no use left returns
    [ErrInvalidToken]; and a sign-up under a name that is taken returns
    [ErrUsernameTaken] after the token was consumed inside the
    transaction, and the committed token is unconsumed. *)
Theorem Signup_is_atomic
    (E : Env) (ttl : Duration) (user pass token UA : string) (st : State) :
  let r := Signup E ttl user pass token UA st in
  (snd (fst r) <> None -> tabs (snd r) = tabs st) /\
  (fault E (db_ops st) = false ->
   fault E (S (db_ops st)) = false ->
   existsb (invite_usable token) (tokens (tabs st)) = false ->
   fst r = (None, Some ErrInvalidToken) /\ tabs (snd r) = tabs st) /\
  (fault E (db_ops st) = false ->
   fault E (S (db_ops st)) = false ->
   fault E (S (S (db_ops st))) = false ->
   existsb (invite_usable token) (tokens (tabs st)) = true ->
   bcrypt_hash E pass <> None ->
   username_taken user (users (tabs st)) = true ->
   fst r = (None, Some ErrUsernameTaken) /\ tabs (snd r) = tabs st /\
   tokens (tabs (snd (useToken E token
                        (mkState (tabs st) (clock_reads st) (rand_reads st)
                                 (ids_made st) (S (db_ops st))))))
   = consume_invite token (tokens (tabs st))).
Proof.
  intros r. subst r. split; [|split].
  - apply transaction_error_restores.
  - intros Hf0 Hf1 Hspent. unfold Signup.
    rewrite transaction_run. cbv zeta. rewrite Hf0.
    rewrite Signup_tx_run. cbv zeta. st_simpl.
    rewrite Hf1, Hspent. st_simpl. split; reflexivity.
  - intros Hf0 Hf1 Hf2 Husable Hhash Htaken. unfold Signup.
    rewrite transaction_run. cbv zeta. rewrite Hf0.
    rewrite Signup_tx_run, useToken_run. cbv zeta. st_simpl.
    rewrite Hf1, Husable.
    destruct (bcrypt_hash E pass); [|congruence].
    rewrite Hf2, Htaken. st_simpl. repeat split.
Qed.

(** The spent invite token; Alice's name with the fresh one; and a
    driver that fails on the INSERT of the session, after the token was
    consumed and the user row added. *)
Lemma Signup_is_atomic_witness :
  (fst (Signup Sample.env Sample.hour "dave" "pw" "spent" "UA" Sample.start)
   = (None, Some ErrInvalidToken) /\
   tabs (snd (Signup Sample.env Sample.hour "dave" "pw" "spent" "UA"
                Sample.start)) = tabs Sample.start) /\
  (fst (Signup Sample.env Sample.hour "alice" "pw" "fresh" "UA" Sample.start)
   = (None, Some ErrUsernameTaken) /\
   tabs (snd (Signup Sample.env Sample.hour "alice" "pw" "fresh" "UA"
                Sample.start)) = tabs Sample.start) /\
  tabs (snd (Signup (Sample.env_fault_at 3) Sample.hour "dave" "pw" "fresh"
               "UA" Sample.start)) = tabs Sample.start.
Proof.
  split; [|split].
  - exact (proj1 (proj2 (Signup_is_atomic Sample.env Sample.hour "dave" "pw"
                           "spent" "UA" Sample.start))
                 eq_refl eq_refl eq_refl).
  - pose proof (proj2 (proj2 (Signup_is_atomic Sample.env Sample.hour "alice"
                                "pw" "fresh" "UA" Sample.start))
                  eq_refl eq_refl eq_refl eq_refl
                  ltac:(discriminate) eq_refl) as [H1 [H2 _]].
    exact (conj H1 H2).
  - exact (proj1 (Signup_is_atomic (Sample.env_fault_at 3) Sample.hour "dave"
                    "pw" "fresh" "UA" Sample.start)
                 ltac:(vm_compute; discriminate)).
Defined.

(** ** Operations on one's own sessions *)

(** C7.  [DeleteSessionID] removes the rows that have both the given id
    and the caller's username, and no other row.  When every row of that
    id belongs to somebody else (or there is none), it returns
    [ErrSessionNotFound] and changes nothing; when the caller has a row
    of that id, it succeeds. *)
Theorem DeleteSessionID_only_own
    (E : Env) (session : Session) (id : Z) (st : State) :
  let r := DeleteSessionID E session id st in
  (forall row, In row (sessions (tabs st)) ->
     ID row <> id \/ Username row <> Username session ->
     In row (sessions (tabs (snd r)))) /\
  (forall row, In row (sessions (tabs (snd r))) ->
     In row (sessions (tabs st))) /\
  (fault E (db_ops st) = false ->
   (forall row, In row (sessions (tabs st)) -> ID row = id ->
      Username row <> Username session) ->
   fst r = Err ErrSessionNotFound /\ tabs (snd r) = tabs st) /\
  (fault E (db_ops st) = false ->
   (exists row, In row (sessions (tabs st)) /\ ID row = id /\
                Username row = Username session) ->
   fst r = Ok tt /\
   sessions (tabs (snd r))
   = delete_where (has_id_and_username id (Username session))
       (sessions (tabs st))).
Proof.
  intros r. subst r. rewrite DeleteSessionID_run. cbv zeta.
  set (cond := has_id_and_username id (Username session)).
  assert (Hcond : forall row, cond row = false <->
                    ID row <> id \/ Username row <> Username session).
  { intros row. unfold cond, has_id_and_username.
    rewrite andb_false_iff, Z.eqb_neq.
    destruct (String.eqb_spec (Username row) (Username session));
      intuition congruence. }
  split; [|split; [|split]].
  - intros row Hin Hother.
    destruct (fault E (db_ops st)); [exact Hin|].
    assert (In row (delete_where cond (sessions (tabs st))))
      by (apply In_delete_where; split; [exact Hin|now apply Hcond]).
    destruct (any_row cond (sessions (tabs st))); assumption.
  - intros row.
    destruct (fault E (db_ops st)); [tauto|].
    destruct (any_row cond (sessions (tabs st))); st_simpl;
      intros Hin; now apply In_delete_where in Hin.
  - intros Hf Hforeign. rewrite Hf.
    assert (Hnone : any_row cond (sessions (tabs st)) = false).
    { unfold any_row.
      destruct (existsb cond (sessions (tabs st))) eqn:Hex; [|reflexivity].
      apply existsb_exists in Hex. destruct Hex as [row [Hin Hrow]].
      unfold cond, has_id_and_username in Hrow.
      apply andb_true_iff in Hrow. destruct Hrow as [Hid Hname].
      apply Z.eqb_eq in Hid. apply String.eqb_eq in Hname.
      now destruct (Hforeign row Hin Hid). }
    rewrite Hnone, (delete_where_none _ _ Hnone), with_sessions_same.
    split; reflexivity.
  - intros Hf [row [Hin [Hid Hname]]]. rewrite Hf.
    assert (Hsome : any_row cond (sessions (tabs st)) = true).
    { unfold any_row. apply existsb_exists. exists row. split; [exact Hin|].
      unfold cond, has_id_and_username.
      apply andb_true_iff. split; [now apply Z.eqb_eq|now apply String.eqb_eq]. }
    rewrite Hsome. split; reflexivity.
Qed.

(** Alice asks to delete Bob's session, id 2, and then her own, id 1. *)
Lemma DeleteSessionID_only_own_witness :
  fst (DeleteSessionID Sample.env Sample.alice_phone 2 Sample.start)
  = Err ErrSessionNotFound /\
  In Sample.bob_laptop
     (sessions (tabs (snd (DeleteSessionID Sample.env Sample.alice_phone 2
                             Sample.start)))) /\
  fst (DeleteSessionID Sample.env Sample.alice_phone 1 Sample.start)
  = Ok tt.
Proof.
  pose proof (DeleteSessionID_only_own Sample.env Sample.alice_phone 2
                Sample.start) as H.
  cbv zeta in H. destruct H as [Hkeep [_ [Hforeign _]]].
  split; [|split].
  - refine (proj1 (Hforeign eq_refl _)).
    intros row Hin Hid. cbn in Hin.
    destruct Hin as [<-|[<-|[<-|[]]]]; cbn in Hid |- *;
      [discriminate Hid|discriminate|discriminate Hid].
  - apply Hkeep; [cbn; tauto|right; cbn; discriminate].
  - refine (proj1 (proj2 (proj2 (proj2 (DeleteSessionID_only_own Sample.env
                                          Sample.alice_phone 1 Sample.start)))
                     eq_refl _)).
    exists Sample.alice_phone. cbn. tauto.
Defined.

(** ** The token generator *)

Section Bits.
Local Open Scope N_scope.

Lemma testbit_shiftl (a k n : N) :
  N.testbit (N.shiftl a k) n = (k <=? n) && N.testbit a (n - k).
Proof.
  destruct (N.leb_spec k n).
  - now rewrite N.shiftl_spec_high' by assumption.
  - now rewrite N.shiftl_spec_low by assumption.
Qed.

Lemma testbit_ones (k n : N) : N.testbit (N.ones k) n = (n <? k).
Proof.
  destruct (N.ltb_spec n k).
  - now apply N.ones_spec_low.
  - now apply N.ones_spec_high.
Qed.

Lemma testbit_small (a k n : N) :
  a < 2 ^ k -> k <= n -> N.testbit a n = false.
Proof.
  intros Ha Hk. destruct (N.eq_dec a 0) as [->|Hz]; [apply N.bits_0|].
  apply N.bits_above_log2. apply N.log2_lt_pow2; [lia|].
  eapply N.lt_le_trans; [exact Ha|]. now apply N.pow_le_mono_r.
Qed.

Lemma testbit_field (v k w n : N) :
  N.testbit (N.land (N.shiftr v k) (N.ones w)) n
  = N.testbit v (n + k) && (n <? w).
Proof. now rewrite N.land_spec, N.shiftr_spec', testbit_ones. Qed.

Ltac bit_cases :=
  repeat match goal with
         | |- context [(?a <=? ?b)] => destruct (N.leb_spec a b)
         | |- context [(?a <? ?b)] => destruct (N.ltb_spec a b)
         end;
  cbn [andb orb];
  rewrite ?N.add_0_r, ?N.sub_0_r, ?andb_true_r, ?andb_false_r, ?orb_false_r;
  try reflexivity; try lia.

(** Bits known to be clear, from hypotheses on a range of positions. *)
Ltac clear_bits :=
  repeat match goal with
         | H : forall n, _ -> N.testbit ?a n = false
           |- context [N.testbit ?a ?i] => rewrite (H i) by lia
         end;
  cbn [andb orb];
  rewrite ?andb_false_r, ?orb_false_r, ?andb_true_r.

Ltac by_bits :=
  apply N.bits_inj; intros ?n;
  change 63 with (N.ones 6); change 255 with (N.ones 8);
  rewrite ?N.lor_spec, ?testbit_shiftl, ?testbit_field, ?N.land_spec,
    ?testbit_ones, ?N.lor_spec, ?testbit_shiftl, ?N.bits_0.

(** The four sextets of a 24-bit value make the value again. *)
Lemma sextets_join (v : N) :
  clear_from 24 v ->
  N.lor (N.lor (N.lor (N.shiftl (N.land (N.shiftr v 18) 63) 18)
                      (N.shiftl (N.land (N.shiftr v 12) 63) 12))
               (N.shiftl (N.land (N.shiftr v 6) 63) 6))
        (N.land (N.shiftr v 0) 63) = v.
Proof.
  unfold clear_from. intros Hv. by_bits. bit_cases;
    rewrite ?N.sub_add by lia; try reflexivity; clear_bits; reflexivity.
Qed.

(** So do the first three when the low six bits are clear, and the first
    two when the low twelve are. *)
Lemma sextets_join3 (v : N) :
  clear_from 24 v -> clear_below 6 v ->
  N.lor (N.lor (N.shiftl (N.land (N.shiftr v 18) 63) 18)
               (N.shiftl (N.land (N.shiftr v 12) 63) 12))
        (N.shiftl (N.land (N.shiftr v 6) 63) 6) = v.
Proof.
  unfold clear_from, clear_below. intros Hv Hlow. by_bits. bit_cases;
    rewrite ?N.sub_add by lia; try reflexivity; clear_bits; reflexivity.
Qed.

Lemma sextets_join2 (v : N) :
  clear_from 24 v -> clear_below 12 v ->
  N.lor (N.shiftl (N.land (N.shiftr v 18) 63) 18)
        (N.shiftl (N.land (N.shiftr v 12) 63) 12) = v.
Proof.
  unfold clear_from, clear_below. intros Hv Hlow. by_bits. bit_cases;
    rewrite ?N.sub_add by lia; try reflexivity; clear_bits; reflexivity.
Qed.

Lemma byte_clear_from (b : Byte.byte) : clear_from 8 (Byte.to_N b).
Proof.
  intros n Hn. apply (testbit_small _ 8); [|exact Hn].
  pose proof (Byte.to_N_bounded b). change (2 ^ 8) with 256. lia.
Qed.

Section Triple.

Variables a b c : N.
Hypothesis Ha : clear_from 8 a.
Hypothesis Hb : clear_from 8 b.
Hypothesis Hc : clear_from 8 c.

Lemma triple_clear_from :
  clear_from 24 (N.lor (N.lor (N.shiftl a 16) (N.shiftl b 8)) c).
Proof.
  unfold clear_from in *. intros n Hn.
  rewrite !N.lor_spec, !testbit_shiftl. bit_cases; clear_bits; reflexivity.
Qed.

Lemma triple_high :
  N.land (N.shiftr (N.lor (N.lor (N.shiftl a 16) (N.shiftl b 8)) c) 16) 255
  = a.
Proof.
  unfold clear_from in *. by_bits. bit_cases;
    rewrite ?N.add_sub; clear_bits; reflexivity.
Qed.

Lemma triple_mid :
  N.land (N.shiftr (N.lor (N.lor (N.shiftl a 16) (N.shiftl b 8)) c) 8) 255
  = b.
Proof.
  unfold clear_from in *. by_bits. bit_cases;
    rewrite ?N.add_sub; clear_bits; reflexivity.
Qed.

Lemma triple_low :
  N.land (N.shiftr (N.lor (N.lor (N.shiftl a 16) (N.shiftl b 8)) c) 0) 255
  = c.
Proof.
  unfold clear_from in *. by_bits. bit_cases;
    rewrite ?N.add_sub; clear_bits; reflexivity.
Qed.

End Triple.

Lemma zero_clear_from : clear_from 8 0.
Proof. intros n _. apply N.bits_0. Qed.

Lemma one_clear_below (a : N) : clear_below 12 (N.shiftl a 16).
Proof. intros n Hn. rewrite testbit_shiftl. bit_cases. Qed.

Lemma two_clear_below (a b : N) :
  clear_below 6 (N.lor (N.shiftl a 16) (N.shiftl b 8)).
Proof. intros n Hn. rewrite N.lor_spec, !testbit_shiftl. bit_cases. Qed.

Lemma one_as_triple (a : N) :
  N.shiftl a 16 = N.lor (N.lor (N.shiftl a 16) (N.shiftl 0 8)) 0.
Proof. now rewrite N.shiftl_0_l, !N.lor_0_r. Qed.

Lemma two_as_triple (a b : N) :
  N.lor (N.shiftl a 16) (N.shiftl b 8)
  = N.lor (N.lor (N.shiftl a 16) (N.shiftl b 8)) 0.
Proof. now rewrite N.lor_0_r. Qed.

Lemma land_63_lt (x : N) : N.land x 63 < 64.
Proof.
  change 63 with (N.ones 6). rewrite N.land_ones.
  apply N.mod_lt. discriminate.
Qed.

Lemma dec_enc (i : N) : i < 64 -> dec (enc i) = Some i.
Proof.
  intros Hi. destruct i as [|p]; [reflexivity|].
  do 6 (try destruct p as [p|p|]); try reflexivity; lia.
Qed.

Lemma enc_url_safe (i : N) : i < 64 -> url_safe (enc i) = true.
Proof.
  intros Hi. destruct i as [|p]; [reflexivity|].
  do 6 (try destruct p as [p|p|]); try reflexivity; lia.
Qed.

Lemma dec_sextet (val shift : N) :
  dec (sextet val shift) = Some (N.land (N.shiftr val shift) 63).
Proof. apply dec_enc, land_63_lt. Qed.

Lemma sextet_url_safe (val shift : N) : url_safe (sextet val shift) = true.
Proof. apply enc_url_safe, land_63_lt. Qed.

End Bits.

Lemma list_ind3 {A} (P : list A -> Prop) :
  P [] -> (forall a, P [a]) -> (forall a b, P [a; b]) ->
  (forall a b c l, P l -> P (a :: b :: c :: l)) ->
  forall l, P l.
Proof.
  intros H0 H1 H2 H3. fix IH 1.
  intros [|a [|b [|c l]]];
    [exact H0|exact (H1 a)|exact (H2 a b)|exact (H3 a b c l (IH l))].
Qed.

Lemma byte_at_to_N (val shift : N) (b : Byte.byte) :
  N.land (N.shiftr val shift) 255 = Byte.to_N b -> byte_at val shift = b.
Proof. unfold byte_at. intros ->. now rewrite Byte.of_to_N. Qed.

Lemma EncodeToString_group a b c rest :
  EncodeToString (a :: b :: c :: rest) =
  let val := N.lor (N.lor (N.shiftl (Byte.to_N a) 16)
                          (N.shiftl (Byte.to_N b) 8))
                   (Byte.to_N c) in
  String (sextet val 18) (String (sextet val 12)
    (String (sextet val 6) (String (sextet val 0) (EncodeToString rest)))).
Proof. reflexivity. Qed.

Lemma EncodeToString_two a b :
  EncodeToString [a; b] =
  let val := N.lor (N.shiftl (Byte.to_N a) 16) (N.shiftl (Byte.to_N b) 8) in
  String (sextet val 18) (String (sextet val 12)
    (String (sextet val 6) EmptyString)).
Proof. reflexivity. Qed.

Lemma EncodeToString_one a :
  EncodeToString [a] =
  let val := N.shiftl (Byte.to_N a) 16 in
  String (sextet val 18) (String (sextet val 12) EmptyString).
Proof. reflexivity. Qed.

Lemma all_chars_impl (p q : ascii -> bool) (s : string) :
  (forall c, p c = true -> q c = true) ->
  all_chars p s = true -> all_chars q s = true.
Proof.
  intros Hpq. induction s as [|c s IH]; simpl; [reflexivity|].
  intros H. apply andb_true_iff in H. destruct H as [Hc Hs].
  now rewrite (Hpq c Hc), IH.
Qed.

(** Every character of a token is of the URL-safe alphabet. *)
Lemma EncodeToString_url_safe (src : list Byte.byte) :
  all_chars url_safe (EncodeToString src) = true.
Proof.
  induction src as [|a|a b|a b c l IH] using list_ind3.
  - reflexivity.
  - rewrite EncodeToString_one. cbn [all_chars].
    now rewrite !sextet_url_safe.
  - rewrite EncodeToString_two. cbn [all_chars].
    now rewrite !sextet_url_safe.
  - rewrite EncodeToString_group. cbn [all_chars].
    now rewrite !sextet_url_safe, IH.
Qed.

(** A token reads back as the bytes it was made from. *)
Lemma DecodeString_EncodeToString (src : list Byte.byte) :
  DecodeString (EncodeToString src) = Some src.
Proof.
  induction src as [|a|a b|a b c l IH] using list_ind3.
  - reflexivity.
  - rewrite EncodeToString_one. cbn [DecodeString]. rewrite !dec_sextet.
    rewrite sextets_join2;
      [|rewrite one_as_triple;
        apply triple_clear_from;
        auto using byte_clear_from, zero_clear_from
       |apply one_clear_below].
    rewrite one_as_triple.
    rewrite (byte_at_to_N _ 16 a)
      by (apply triple_high; auto using byte_clear_from, zero_clear_from).
    reflexivity.
  - rewrite EncodeToString_two. cbn [DecodeString]. rewrite !dec_sextet.
    rewrite sextets_join3;
      [|rewrite two_as_triple;
        apply triple_clear_from;
        auto using byte_clear_from, zero_clear_from
       |apply two_clear_below].
    rewrite two_as_triple.
    rewrite (byte_at_to_N _ 16 a), (byte_at_to_N _ 8 b)
      by (apply triple_high || apply triple_mid;
          auto using byte_clear_from, zero_clear_from).
    reflexivity.
  - rewrite EncodeToString_group. cbn [DecodeString]. rewrite !dec_sextet, IH.
    rewrite sextets_join
      by (apply triple_clear_from; auto using byte_clear_from).
    rewrite (byte_at_to_N _ 16 a), (byte_at_to_N _ 8 b), (byte_at_to_N _ 0 c)
      by (apply triple_high || apply triple_mid || apply triple_low;
          auto using byte_clear_from).
    reflexivity.
Qed.

(** The test vectors of RFC 4648, without padding, and one that needs
    the two characters special to the URL alphabet. *)
Example EncodeToString_vectors :
  EncodeToString [] = "" /\
  EncodeToString [Byte.x66] = "Zg" /\
  EncodeToString [Byte.x66; Byte.x6f] = "Zm8" /\
  EncodeToString [Byte.x66; Byte.x6f; Byte.x6f] = "Zm9v" /\
  EncodeToString [Byte.x66; Byte.x6f; Byte.x6f; Byte.x62] = "Zm9vYg" /\
  EncodeToString [Byte.x66; Byte.x6f; Byte.x6f; Byte.x62; Byte.x61]
  = "Zm9vYmE" /\
  EncodeToString [Byte.x66; Byte.x6f; Byte.x6f; Byte.x62; Byte.x61; Byte.x72]
  = "Zm9vYmFy" /\
  EncodeToString [Byte.xfb; Byte.xff] = "-_8".
Proof. repeat split. Qed.

(** A sign-in at noon under a lifespan of two hours: the session is
    stored, and resolves at half past one. *)
Example Signin_then_QuerySession :
  fst (Signin Sample.env (2 * Sample.hour) "alice" "secret" "UA"
         Sample.start) = (Some Sample.alice_new, None) /\
  fst (QuerySession Sample.env (AuthToken Sample.alice_new) Sample.hour
         (snd (Signin Sample.env (2 * Sample.hour) "alice" "secret" "UA"
                 Sample.start)))
  = Ok (with_Deadline (14 * Sample.hour + Sample.hour / 2) Sample.alice_new).
Proof. split; vm_compute; reflexivity. Qed.

(** C8.  [randToken] asks the entropy source once for 32 bytes, 256
    bits, and returns their unpadded URL-safe base64 text: 43 characters,
    each a letter, a digit, [-] or [_] (so none is the padding [=]),
    from which the 32 bytes read back.  When the source reports an error
    there is no second attempt: [randToken] and [NewSession] fail with
    that error, and a [Signin] or [Signup] in that state returns an error
    and no session, and leaves the committed tables as they were. *)
Theorem randToken_draws_256_bits (E : Env) (st : State) :
  (forall src, entropy E (rand_reads st) = Some src ->
     let token := map src (seq 0 32) in
     fst (randToken E st) = Ok (EncodeToString token) /\
     (8 * List.length token = 256)%nat /\
     String.length (EncodeToString token) = 43%nat /\
     all_chars url_safe (EncodeToString token) = true /\
     all_chars (fun c => negb (Ascii.eqb c "=")) (EncodeToString token)
     = true /\
     DecodeString (EncodeToString token) = Some token) /\
  (entropy E (rand_reads st) = None ->
     fst (randToken E st)
     = Err (Wrapped ErrEntropy "Failed to generate randomness") /\
     rand_reads (snd (randToken E st)) = S (rand_reads st) /\
     (forall user UA ttl,
        fst (NewSession E user UA ttl st)
        = Err (Wrapped (Wrapped ErrEntropy "Failed to generate randomness")
                       "Failed to generate a token")) /\
     (forall ttl user pass UA,
        exists err,
          fst (Signin E ttl user pass UA st) = (None, Some err) /\
          tabs (snd (Signin E ttl user pass UA st)) = tabs st) /\
     (forall ttl user pass token UA,
        exists err,
          fst (Signup E ttl user pass token UA st) = (None, Some err) /\
          tabs (snd (Signup E ttl user pass token UA st)) = tabs st)).
Proof.
  split.
  - intros src Hsrc token.
    split; [|split; [|split; [|split; [|split]]]].
    + unfold randToken, bind, wrap_err, rand_Read, ret. now rewrite Hsrc.
    + reflexivity.
    + reflexivity.
    + apply EncodeToString_url_safe.
    + apply all_chars_impl with (p := url_safe);
        [|apply EncodeToString_url_safe].
      intros c Hc. destruct (Ascii.eqb_spec c "="); [|reflexivity].
      subst c. discriminate Hc.
    + apply DecodeString_EncodeToString.
  - intros Hnone. split; [|split; [|split; [|split]]].
    + unfold randToken, bind, wrap_err, rand_Read, ret. now rewrite Hnone.
    + unfold randToken, bind, wrap_err, rand_Read, ret. now rewrite Hnone.
    + intros user UA ttl. rewrite NewSession_run. now rewrite Hnone.
    + intros ttl user pass UA. unfold Signin.
      rewrite transaction_run. cbv zeta.
      destruct (fault E (db_ops st)); [st_simpl; eauto|].
      rewrite Signin_tx_run. cbv zeta. st_simpl.
      destruct (fault E (S (db_ops st))); [st_simpl; eauto|].
      destruct (select_passhash user (users (tabs st))); [|st_simpl; eauto].
      destruct (bcrypt_matches E l pass); [|st_simpl; eauto].
      rewrite NewSession_run. st_simpl. rewrite Hnone. st_simpl. eauto.
    + intros ttl user pass token UA. unfold Signup.
      rewrite transaction_run. cbv zeta.
      destruct (fault E (db_ops st)); [st_simpl; eauto|].
      rewrite Signup_tx_run. cbv zeta. st_simpl.
      destruct (fault E (S (db_ops st))); [st_simpl; eauto|].
      destruct (existsb (invite_usable token) (tokens (tabs st)));
        [|st_simpl; eauto].
      destruct (bcrypt_hash E pass); [|st_simpl; eauto].
      destruct (fault E (S (S (db_ops st)))); [st_simpl; eauto|].
      destruct (username_taken user (users (tabs st))); [st_simpl; eauto|].
      rewrite NewSession_run. st_simpl. rewrite Hnone. st_simpl. eauto.
Qed.

(** The sample source delivers; the broken one does not. *)
Lemma randToken_draws_256_bits_witness :
  fst (randToken Sample.env Sample.start)
  = Ok "AwoRGB8mLTQ7QklQV15lbHN6gYiPlp2kq7K5wMfO1dw" /\
  exists err,
    fst (Signin Sample.env_no_entropy Sample.hour "alice" "secret" "UA"
           Sample.start) = (None, Some err).
Proof.
  split.
  - exact (proj1 (proj1 (randToken_draws_256_bits Sample.env Sample.start)
                    _ eq_refl)).
  - destruct (proj2 (randToken_draws_256_bits Sample.env_no_entropy
                       Sample.start) eq_refl)
      as [_ [_ [_ [Hin _]]]].
    destruct (Hin Sample.hour "alice" "secret" "UA") as [err [Herr _]].
    exists err. exact Herr.
Defined.

(** ** Further facts about the session operations *)

Lemma In_firstn {A} (k : nat) (l : list A) (x : A) :
  In x (firstn k l) -> In x l.
Proof.
  intros H. rewrite <- (firstn_skipn k l). apply in_or_app. now left.
Qed.

Lemma delete_where_twice cond ss :
  any_row cond (delete_where cond ss) = false.
Proof.
  unfold any_row, delete_where.
  induction ss as [|r ss IH]; simpl; [reflexivity|].
  destruct (cond r) eqn:Hr; simpl; [exact IH|].
  now rewrite Hr, IH.
Qed.

Lemma select_delete_token token ss :
  select_session_by_token token (delete_where (has_token token) ss) = None.
Proof.
  apply select_none_intro. intros r Hr.
  apply In_delete_where in Hr. exact (proj2 Hr).
Qed.

(** The UPDATE keeps every row in its place and changes nothing of it
    but the deadline. *)
Lemma update_deadline_erased d token ss :
  map (with_Deadline 0) (update_deadline d token ss)
  = map (with_Deadline 0) ss.
Proof.
  unfold update_deadline. rewrite map_map. apply map_ext.
  intros r. now destruct (String.eqb (AuthToken r) token).
Qed.

Lemma update_deadline_nth d token ss i r :
  nth_error ss i = Some r -> AuthToken r <> token ->
  nth_error (update_deadline d token ss) i = Some r.
Proof.
  intros Hi Hne. unfold update_deadline.
  rewrite nth_error_map, Hi. simpl.
  destruct (String.eqb_spec (AuthToken r) token); [contradiction|reflexivity].
Qed.

Section MoreFacts.

Variable E : Env.

(** [QuerySession], step by step. *)
Lemma QuerySession_run token renewTTL st :
  QuerySession E token renewTTL st =
  let st1 := mkState (tabs st) (clock_reads st) (rand_reads st)
                     (ids_made st) (S (db_ops st)) in
  if fault E (db_ops st)
  then (Err (Wrapped ErrDriver "Failed to scan session"), st1)
  else
    match select_session_by_token token (sessions (tabs st)) with
    | None => (Err ErrSessionExpired, st1)
    | Some s =>
        let now := wall E (clock_reads st) in
        let st2 := mkState (tabs st) (S (clock_reads st)) (rand_reads st)
                           (ids_made st) (S (db_ops st)) in
        if UnixNano now >? Deadline s then (Err ErrSessionExpired, st2)
        else
          let d := UnixNano (Time_Add now renewTTL) in
          let st3 := mkState (tabs st) (S (clock_reads st)) (rand_reads st)
                             (ids_made st) (S (S (db_ops st))) in
          if fault E (S (db_ops st))
          then (Err (Wrapped ErrDriver "Failed to renew token"), st3)
          else (Ok (with_Deadline d s),
                with_tabs (with_sessions
                             (update_deadline d (AuthToken s)
                                (sessions (tabs st)))
                             (tabs st)) st3)
    end.
Proof.
  cbv zeta. destruct (fault E (db_ops st)) eqn:Hf.
  - unfold QuerySession, scan_session, driver. now rewrite Hf.
  - destruct (select_session_by_token token (sessions (tabs st))) as [s|]
      eqn:Hs.
    + now rewrite (QuerySession_found E _ _ _ _ Hf Hs).
    + unfold QuerySession. now rewrite (scan_session_missing E _ _ Hf Hs).
Qed.

(** The state a successful renewal leaves. *)
Lemma QuerySession_renews_step token renewTTL st s :
  select_session_by_token token (sessions (tabs st)) = Some s ->
  fault E (db_ops st) = false ->
  fault E (S (db_ops st)) = false ->
  UnixNano (wall E (clock_reads st)) <= Deadline s ->
  let d := UnixNano (Time_Add (wall E (clock_reads st)) renewTTL) in
  snd (QuerySession E token renewTTL st)
  = mkState (with_sessions (update_deadline d token (sessions (tabs st)))
                           (tabs st))
            (S (clock_reads st)) (rand_reads st) (ids_made st)
            (S (S (db_ops st))) /\
  select_session_by_token token
    (update_deadline d token (sessions (tabs st)))
  = Some (with_Deadline d s).
Proof.
  intros Hs Hf0 Hf1 Hlive d. split.
  - rewrite QuerySession_run. cbv zeta. rewrite Hf0, Hs, Hf1.
    destruct (Z.gtb_spec (UnixNano (wall E (clock_reads st))) (Deadline s));
      [lia|].
    now rewrite (find_token_AuthToken _ _ _ Hs).
  - now apply select_update_deadline.
Qed.

(** [Signout], step by step. *)
Lemma Signout_run session st :
  Signout E session st =
  let cond := has_token (AuthToken session) in
  let st1 t := mkState t (clock_reads st) (rand_reads st)
                       (ids_made st) (S (db_ops st)) in
  if fault E (db_ops st)
  then (Err (Wrapped ErrDriver "Failed to delete token"), st1 (tabs st))
  else
    let t1 := with_sessions (delete_where cond (sessions (tabs st)))
                            (tabs st) in
    if any_row cond (sessions (tabs st))
    then (Ok tt, st1 t1)
    else (Err ErrSessionNotFound, st1 t1).
Proof.
  unfold Signout, execChanged, bind, wrap_err, driver, ret, raise.
  cbv zeta.
  destruct (fault E (db_ops st)); [reflexivity|]. st_simpl.
  destruct (any_row _ _); reflexivity.
Qed.

(** The loop of [Sessions] when the driver fails at the [i]-th [Next]
    and not before, and when it does not fail while rows remain. *)
Lemma scan_rows_cut rows : forall i acc st,
  (i < List.length rows)%nat ->
  (forall j, (j < i)%nat -> fault E (j + db_ops st) = false) ->
  fault E (i + db_ops st) = true ->
  fst (scan_rows E rows acc st) = Ok (acc ++ firstn i rows).
Proof.
  induction rows as [|s rows IH]; intros i acc st Hi Hok Hbad;
    [simpl in Hi; lia|].
  destruct i as [|i]; cbn [scan_rows firstn].
  - simpl in Hbad. rewrite Hbad. now rewrite app_nil_r.
  - rewrite (Hok 0%nat ltac:(lia) : fault E (db_ops st) = false).
    rewrite IH with (i := i).
    + now rewrite <- app_assoc.
    + simpl in Hi. lia.
    + intros j Hj. st_simpl. rewrite <- Nat.add_succ_comm.
      apply Hok. lia.
    + st_simpl. rewrite <- Nat.add_succ_comm. exact Hbad.
Qed.

Lemma scan_rows_all rows : forall acc st,
  (forall j, (j < List.length rows)%nat -> fault E (j + db_ops st) = false) ->
  scan_rows E rows acc st
  = (Ok (acc ++ rows),
     mkState (tabs st) (clock_reads st) (rand_reads st) (ids_made st)
             (S (List.length rows) + db_ops st)).
Proof.
  induction rows as [|s rows IH]; intros acc st Hok; cbn [scan_rows].
  - now rewrite app_nil_r.
  - rewrite (Hok 0%nat ltac:(simpl; lia) : fault E (db_ops st) = false).
    rewrite IH.
    + st_simpl. rewrite <- app_assoc. simpl.
      now rewrite <- plus_n_Sm.
    + intros j Hj. st_simpl. rewrite <- Nat.add_succ_comm.
      apply Hok. simpl. lia.
Qed.

(** Whatever the driver does, the loop yields the rows it was given up
    to some point, after what it had. *)
Lemma scan_rows_prefix rows : forall acc st,
  exists k, fst (scan_rows E rows acc st) = Ok (acc ++ firstn k rows).
Proof.
  induction rows as [|s rows IH]; intros acc st; cbn [scan_rows].
  - exists 0%nat. now rewrite app_nil_r.
  - destruct (fault E (db_ops st)).
    + exists 0%nat. now rewrite app_nil_r.
    + destruct (IH (acc ++ [s])
                  (mkState (tabs st) (clock_reads st) (rand_reads st)
                           (ids_made st) (S (db_ops st)))) as [k Hk].
      exists (S k). rewrite Hk. simpl. now rewrite <- app_assoc.
Qed.

Lemma scan_rows_state rows : forall acc st,
  tabs (snd (scan_rows E rows acc st)) = tabs st /\
  clock_reads (snd (scan_rows E rows acc st)) = clock_reads st.
Proof.
  induction rows as [|s rows IH]; intros acc st; cbn [scan_rows].
  - split; reflexivity.
  - destruct (fault E (db_ops st)); [split; reflexivity|].
    destruct (IH (acc ++ [s])
                (mkState (tabs st) (clock_reads st) (rand_reads st)
                         (ids_made st) (S (db_ops st)))) as [H1 H2].
    now rewrite H1, H2.
Qed.

(** [Sessions], up to the loop. *)
Lemma Sessions_run session st :
  Sessions E session st =
  let st1 := mkState (tabs st) (clock_reads st) (rand_reads st)
                     (ids_made st) (S (db_ops st)) in
  if fault E (db_ops st)
  then (Err (Wrapped ErrDriver "Failed to query for sessions"), st1)
  else scan_rows E
         (filter (has_username (Username session)) (sessions (tabs st)))
         [] st1.
Proof.
  unfold Sessions, Queryx_sessions, bind, wrap_err, driver. cbv zeta.
  destruct (fault E (db_ops st)); [reflexivity|].
  destruct st as [[ss us ts] c r i k]. reflexivity.
Qed.

End MoreFacts.

Lemma wrap64_over (z : Z) :
  2 ^ 63 <= z < 2 ^ 63 + 2 ^ 64 -> wrap64 z = z - 2 ^ 64.
Proof.
  intros Hz. unfold wrap64.
  replace (z + 2 ^ 63) with (z + 2 ^ 63 - 2 ^ 64 + 1 * 2 ^ 64) by lia.
  rewrite Z.mod_add by lia. rewrite Z.mod_small by lia. lia.
Qed.

Lemma EncodeToString_inj (a b : list Byte.byte) :
  EncodeToString a = EncodeToString b -> a = b.
Proof.
  intros H. pose proof (DecodeString_EncodeToString a) as Ha.
  rewrite H, DecodeString_EncodeToString in Ha. now injection Ha.
Qed.

(** ** Signing out *)

(** X1.  [Signout] deletes the rows of the session's token and no other
    row.  With no such row it returns [ErrSessionNotFound]; when the
    driver fails it returns the wrapped failure; in both cases the tables
    stay as they were. *)
Theorem Signout_deletes_own_token (E : Env) (session : Session) (st : State) :
  let r := Signout E session st in
  let own := has_token (AuthToken session) in
  (fault E (db_ops st) = true ->
   fst r = Err (Wrapped ErrDriver "Failed to delete token") /\
   tabs (snd r) = tabs st) /\
  (fault E (db_ops st) = false ->
   any_row own (sessions (tabs st)) = false ->
   fst r = Err ErrSessionNotFound /\ tabs (snd r) = tabs st) /\
  (fault E (db_ops st) = false ->
   any_row own (sessions (tabs st)) = true ->
   fst r = Ok tt /\
   (forall row, In row (sessions (tabs (snd r))) <->
                In row (sessions (tabs st)) /\
                AuthToken row <> AuthToken session) /\
   users (tabs (snd r)) = users (tabs st) /\
   tokens (tabs (snd r)) = tokens (tabs st)).
Proof.
  intros r own. subst r. rewrite Signout_run. cbv zeta. fold own.
  split; [|split].
  - intros ->. split; reflexivity.
  - intros -> Hnone. rewrite Hnone, (delete_where_none _ _ Hnone),
      with_sessions_same. split; reflexivity.
  - intros -> Hsome. rewrite Hsome. st_simpl.
    split; [reflexivity|]. split; [|split; reflexivity].
    intros row. rewrite In_delete_where. unfold own, has_token.
    destruct (String.eqb_spec (AuthToken row) (AuthToken session));
      intuition congruence.
Qed.

(** Alice signs out of her phone. *)
Lemma Signout_deletes_own_token_witness :
  fst (Signout Sample.env Sample.alice_phone Sample.start) = Ok tt /\
  sessions (tabs (snd (Signout Sample.env Sample.alice_phone Sample.start)))
  = [Sample.bob_laptop; Sample.carol_old].
Proof.
  split.
  - exact (proj1 (proj2 (proj2 (Signout_deletes_own_token Sample.env
                                  Sample.alice_phone Sample.start))
                   eq_refl eq_refl)).
  - reflexivity.
Defined.

(** X2.  Once a [Signout] has reached the database the token is gone:
    signing out again returns [ErrSessionNotFound], and resolving the
    token returns [ErrSessionExpired]. *)
Theorem Signout_is_final
    (E : Env) (session : Session) (renewTTL : Duration) (st : State) :
  fault E (db_ops st) = false ->
  fault E (S (db_ops st)) = false ->
  let st' := snd (Signout E session st) in
  fst (Signout E session st') = Err ErrSessionNotFound /\
  fst (QuerySession E (AuthToken session) renewTTL st')
  = Err ErrSessionExpired.
Proof.
  intros Hf0 Hf1 st'.
  assert (Hst' : db_ops st' = S (db_ops st) /\
                 sessions (tabs st')
                 = delete_where (has_token (AuthToken session))
                     (sessions (tabs st))).
  { subst st'. rewrite Signout_run. cbv zeta. rewrite Hf0.
    destruct (any_row _ _); split; reflexivity. }
  destruct Hst' as [Hops Hss]. split.
  - rewrite Signout_run. cbv zeta. rewrite Hops, Hf1, Hss.
    now rewrite delete_where_twice.
  - rewrite QuerySession_run. cbv zeta. rewrite Hops, Hf1, Hss.
    now rewrite select_delete_token.
Qed.

Lemma Signout_is_final_witness :
  fst (Signout Sample.env Sample.alice_phone
         (snd (Signout Sample.env Sample.alice_phone Sample.start)))
  = Err ErrSessionNotFound /\
  fst (QuerySession Sample.env "tok-alice" Sample.hour
         (snd (Signout Sample.env Sample.alice_phone Sample.start)))
  = Err ErrSessionExpired.
Proof.
  exact (Signout_is_final Sample.env Sample.alice_phone Sample.hour
           Sample.start eq_refl eq_refl).
Defined.

(** X3.  After a [DeleteSessionID] that reached the database, deleting
    the same id again returns [ErrSessionNotFound]. *)
Theorem DeleteSessionID_twice
    (E : Env) (session : Session) (id : Z) (st : State) :
  fault E (db_ops st) = false ->
  fault E (S (db_ops st)) = false ->
  fst (DeleteSessionID E session id (snd (DeleteSessionID E session id st)))
  = Err ErrSessionNotFound.
Proof.
  intros Hf0 Hf1.
  assert (Hst' : db_ops (snd (DeleteSessionID E session id st))
                 = S (db_ops st) /\
                 sessions (tabs (snd (DeleteSessionID E session id st)))
                 = delete_where (has_id_and_username id (Username session))
                     (sessions (tabs st))).
  { rewrite DeleteSessionID_run. cbv zeta. rewrite Hf0.
    destruct (any_row _ _); split; reflexivity. }
  destruct Hst' as [Hops Hss].
  rewrite DeleteSessionID_run. cbv zeta. rewrite Hops, Hf1, Hss.
  now rewrite delete_where_twice.
Qed.

Lemma DeleteSessionID_twice_witness :
  fst (DeleteSessionID Sample.env Sample.alice_phone 1
         (snd (DeleteSessionID Sample.env Sample.alice_phone 1
                 Sample.start)))
  = Err ErrSessionNotFound.
Proof.
  exact (DeleteSessionID_twice Sample.env Sample.alice_phone 1 Sample.start
           eq_refl eq_refl).
Defined.

(** ** Listing one's sessions *)

(** X4.  When the driver answers the query and every [Next], [Sessions]
    returns the rows of the caller's username, all of them and in table
    order.  It reads no clock, so rows past their deadline are listed as
    well; and it changes no table. *)
Theorem Sessions_lists_own_rows (E : Env) (session : Session) (st : State) :
  let own := filter (has_username (Username session)) (sessions (tabs st)) in
  (forall j, (j <= List.length own)%nat -> fault E (j + db_ops st) = false) ->
  fst (Sessions E session st) = Ok own /\
  tabs (snd (Sessions E session st)) = tabs st /\
  clock_reads (snd (Sessions E session st)) = clock_reads st.
Proof.
  intros own Hok. rewrite Sessions_run. cbv zeta.
  rewrite (Hok 0%nat ltac:(lia) : fault E (db_ops st) = false).
  fold own. rewrite scan_rows_all.
  - repeat split.
  - intros j Hj. st_simpl. rewrite <- Nat.add_succ_comm. apply Hok. lia.
Qed.

(** Carol's only session was due an hour ago, and is listed. *)
Lemma Sessions_lists_own_rows_witness :
  fst (Sessions Sample.env Sample.carol_old Sample.start)
  = Ok [Sample.carol_old].
Proof.
  exact (proj1 (Sessions_lists_own_rows Sample.env Sample.carol_old
                  Sample.start (fun _ _ => eq_refl))).
Defined.

(** X5.  Whatever the driver does, a list that [Sessions] returns holds
    rows of the table that bear the caller's username, and nothing else:
    it is an initial part of the caller's rows.  The tables are never
    changed. *)
Theorem Sessions_only_own
    (E : Env) (session : Session) (st : State) (l : list Session) :
  fst (Sessions E session st) = Ok l ->
  (exists k,
     l = firstn k (filter (has_username (Username session))
                     (sessions (tabs st)))) /\
  (forall row, In row l ->
     In row (sessions (tabs st)) /\ Username row = Username session) /\
  tabs (snd (Sessions E session st)) = tabs st.
Proof.
  rewrite Sessions_run. cbv zeta.
  destruct (fault E (db_ops st)); [discriminate|].
  set (own := filter _ _).
  set (st1 := mkState _ _ _ _ _).
  destruct (scan_rows_prefix E own [] st1) as [k Hk].
  rewrite Hk. intros [= <-]. simpl. split; [|split].
  - now exists k.
  - intros row Hin. apply In_firstn in Hin. unfold own in Hin.
    apply filter_In in Hin. destruct Hin as [Hin Hname].
    split; [exact Hin|]. now apply String.eqb_eq.
  - exact (proj1 (scan_rows_state E own [] st1)).
Qed.

Lemma Sessions_only_own_witness :
  In Sample.alice_phone (sessions (tabs Sample.start)) /\
  Username Sample.alice_phone = "alice".
Proof.
  exact (proj1 (proj2 (Sessions_only_own Sample.env Sample.alice_phone
                         Sample.start [Sample.alice_phone] eq_refl))
               Sample.alice_phone (or_introl eq_refl)).
Defined.

(** X6.  When the driver answers the query and then fails at a [Next]
    while rows remain, [Sessions] returns the rows read so far and no
    error: the caller cannot tell the shortened list from a whole one. *)
Theorem Sessions_cut_short_without_error
    (E : Env) (session : Session) (st : State) (i : nat) :
  let own := filter (has_username (Username session)) (sessions (tabs st)) in
  (i < List.length own)%nat ->
  (forall j, (j <= i)%nat -> fault E (j + db_ops st) = false) ->
  fault E (S i + db_ops st) = true ->
  fst (Sessions E session st) = Ok (firstn i own) /\
  (List.length (firstn i own) < List.length own)%nat.
Proof.
  intros own Hi Hok Hbad. rewrite Sessions_run. cbv zeta.
  rewrite (Hok 0%nat ltac:(lia) : fault E (db_ops st) = false).
  fold own. split.
  - rewrite (scan_rows_cut E own i); [reflexivity|exact Hi| |].
    + intros j Hj. st_simpl. rewrite <- Nat.add_succ_comm. apply Hok. lia.
    + st_simpl. rewrite <- Nat.add_succ_comm. exact Hbad.
  - rewrite length_firstn. lia.
Qed.

(** Alice has two sessions; the driver fails at the second [Next]. *)
Lemma Sessions_cut_short_without_error_witness :
  fst (Sessions (Sample.env_fault_at 4) Sample.alice_phone Sample.after_insert)
  = Ok [Sample.alice_phone].
Proof.
  exact (proj1 (Sessions_cut_short_without_error (Sample.env_fault_at 4)
                  Sample.alice_phone Sample.after_insert 1
                  ltac:(vm_compute; lia)
                  (fun j Hj =>
                     match j as j0 return (j0 <= 1)%nat ->
                       fault (Sample.env_fault_at 4)
                             (j0 + db_ops Sample.after_insert) = false with
                     | O => fun _ => eq_refl
                     | S O => fun _ => eq_refl
                     | S (S _) => fun H => ltac:(lia)
                     end Hj)
                  eq_refl)).
Defined.

(** ** More on lookup and renewal *)

(** X7.  Whatever its outcome, [QuerySession] leaves the users and the
    invite tokens alone and keeps every session row in its place; it
    changes nothing of a row but the deadline, and nothing at all of the
    rows of other tokens. *)
Theorem QuerySession_changes_only_deadlines
    (E : Env) (token : string) (renewTTL : Duration) (st : State) :
  let st' := snd (QuerySession E token renewTTL st) in
  users (tabs st') = users (tabs st) /\
  tokens (tabs st') = tokens (tabs st) /\
  map (with_Deadline 0) (sessions (tabs st'))
  = map (with_Deadline 0) (sessions (tabs st)) /\
  forall i row,
    nth_error (sessions (tabs st)) i = Some row ->
    AuthToken row <> token ->
    nth_error (sessions (tabs st')) i = Some row.
Proof.
  intros st'. subst st'. rewrite QuerySession_run. cbv zeta.
  destruct (fault E (db_ops st)); [st_simpl; auto|].
  destruct (select_session_by_token token (sessions (tabs st))) as [s|]
    eqn:Hs; [|st_simpl; auto].
  destruct (UnixNano (wall E (clock_reads st)) >? Deadline s);
    [st_simpl; auto|].
  destruct (fault E (S (db_ops st))); [st_simpl; auto|].
  st_simpl. rewrite (find_token_AuthToken _ _ _ Hs).
  repeat split.
  - apply update_deadline_erased.
  - intros i row Hi Hne. now apply update_deadline_nth.
Qed.

(** X8.  When a live session is found and the driver fails on the
    UPDATE, [QuerySession] returns the wrapped failure and no session,
    and the stored deadline is the old one. *)
Theorem QuerySession_renewal_failure
    (E : Env) (token : string) (renewTTL : Duration) (st : State)
    (s : Session) :
  select_session_by_token token (sessions (tabs st)) = Some s ->
  fault E (db_ops st) = false ->
  UnixNano (wall E (clock_reads st)) <= Deadline s ->
  fault E (S (db_ops st)) = true ->
  fst (QuerySession E token renewTTL st)
  = Err (Wrapped ErrDriver "Failed to renew token") /\
  tabs (snd (QuerySession E token renewTTL st)) = tabs st.
Proof.
  intros Hs Hf0 Hlive Hf1. rewrite QuerySession_run. cbv zeta.
  rewrite Hf0, Hs, Hf1.
  destruct (Z.gtb_spec (UnixNano (wall E (clock_reads st))) (Deadline s));
    [lia|]. split; reflexivity.
Qed.

Lemma QuerySession_renewal_failure_witness :
  fst (QuerySession (Sample.env_fault_at 1) "tok-alice" Sample.hour
         Sample.start)
  = Err (Wrapped ErrDriver "Failed to renew token").
Proof.
  exact (proj1 (QuerySession_renewal_failure (Sample.env_fault_at 1)
                  "tok-alice" Sample.hour Sample.start Sample.alice_phone
                  eq_refl eq_refl ltac:(vm_compute; discriminate) eq_refl)).
Defined.

(** X9.  Two resolutions in a row: the second is judged against the
    deadline the first one stored, the first clock reading plus the first
    [renewTTL], and when it passes it moves the deadline to the second
    clock reading plus the second [renewTTL]. *)
Theorem QuerySession_twice
    (E : Env) (token : string) (ttl1 ttl2 : Duration) (st : State)
    (s : Session) :
  select_session_by_token token (sessions (tabs st)) = Some s ->
  (forall n, (n < 4)%nat -> fault E (n + db_ops st) = false) ->
  UnixNano (wall E (clock_reads st)) <= Deadline s ->
  let now1 := wall E (clock_reads st) in
  let now2 := wall E (S (clock_reads st)) in
  let second := QuerySession E token ttl2
                  (snd (QuerySession E token ttl1 st)) in
  (UnixNano now2 <= UnixNano (Time_Add now1 ttl1) ->
   fst second = Ok (with_Deadline (UnixNano (Time_Add now2 ttl2)) s)) /\
  (UnixNano now2 > UnixNano (Time_Add now1 ttl1) ->
   fst second = Err ErrSessionExpired).
Proof.
  intros Hs Hf Hlive now1 now2 second.
  pose proof (Hf 0%nat ltac:(lia)) as Hf0.
  pose proof (Hf 1%nat ltac:(lia)) as Hf1.
  pose proof (Hf 2%nat ltac:(lia)) as Hf2.
  pose proof (Hf 3%nat ltac:(lia)) as Hf3.
  simpl in Hf0, Hf1, Hf2, Hf3.
  destruct (QuerySession_renews_step E token ttl1 st s Hs Hf0 Hf1 Hlive)
    as [Hst' Hsel]. fold now1 in Hst', Hsel.
  subst second. rewrite QuerySession_run. cbv zeta.
  rewrite Hst'. st_simpl. rewrite Hf2, Hsel.
  fold now2. cbn [Deadline with_Deadline].
  split; intros Hcmp.
  - destruct (Z.gtb_spec (UnixNano now2) (UnixNano (Time_Add now1 ttl1)));
      [lia|].
    now rewrite Hf3.
  - destruct (Z.gtb_spec (UnixNano now2) (UnixNano (Time_Add now1 ttl1)));
      [reflexivity|lia].
Qed.

(** Alice's session is resolved at noon and again at half past twelve:
    renewed for an hour the first time, it resolves again; renewed for a
    quarter of an hour, it does not. *)
Lemma QuerySession_twice_witness :
  fst (QuerySession Sample.env "tok-alice" Sample.hour
         (snd (QuerySession Sample.env "tok-alice" Sample.hour Sample.start)))
  = Ok (with_Deadline (13 * Sample.hour + Sample.hour / 2)
                      Sample.alice_phone) /\
  fst (QuerySession Sample.env "tok-alice" Sample.hour
         (snd (QuerySession Sample.env "tok-alice" (Sample.hour / 4)
                 Sample.start)))
  = Err ErrSessionExpired.
Proof.
  split.
  - exact (proj1 (QuerySession_twice Sample.env "tok-alice" Sample.hour
                    Sample.hour Sample.start Sample.alice_phone eq_refl
                    (fun _ _ => eq_refl) ltac:(vm_compute; discriminate))
                 ltac:(vm_compute; discriminate)).
  - exact (proj2 (QuerySession_twice Sample.env "tok-alice" (Sample.hour / 4)
                    Sample.hour Sample.start Sample.alice_phone eq_refl
                    (fun _ _ => eq_refl) ltac:(vm_compute; discriminate))
                 ltac:(vm_compute; reflexivity)).
Defined.

(** X10.  The deadline is an [int64] of nanoseconds.  When the clock
    reading plus [renewTTL] is 2^63 or more, the deadline that
    [QuerySession] returns and stores is that sum less 2^64, a negative
    number: at any later clock reading that is not negative the session
    counts as expired. *)
Theorem QuerySession_renewal_overflow
    (E : Env) (token : string) (renewTTL renewTTL' : Duration) (st : State)
    (s : Session) :
  select_session_by_token token (sessions (tabs st)) = Some s ->
  (forall n, (n < 3)%nat -> fault E (n + db_ops st) = false) ->
  UnixNano (wall E (clock_reads st)) <= Deadline s ->
  let now := wall E (clock_reads st) in
  int64_range now -> int64_range renewTTL ->
  2 ^ 63 <= now + renewTTL ->
  0 <= UnixNano (wall E (S (clock_reads st))) ->
  fst (QuerySession E token renewTTL st)
  = Ok (with_Deadline (now + renewTTL - 2 ^ 64) s) /\
  now + renewTTL - 2 ^ 64 < 0 /\
  fst (QuerySession E token renewTTL'
         (snd (QuerySession E token renewTTL st)))
  = Err ErrSessionExpired.
Proof.
  intros Hs Hf Hlive now Hnow Httl Hover Hlater.
  pose proof (Hf 0%nat ltac:(lia)) as Hf0.
  pose proof (Hf 1%nat ltac:(lia)) as Hf1.
  pose proof (Hf 2%nat ltac:(lia)) as Hf2.
  simpl in Hf0, Hf1, Hf2.
  unfold int64_range in Hnow, Httl.
  assert (Hd : UnixNano (Time_Add now renewTTL) = now + renewTTL - 2 ^ 64).
  { unfold UnixNano, Time_Add. apply wrap64_over. lia. }
  split; [|split].
  - rewrite QuerySession_run. cbv zeta. rewrite Hf0, Hs, Hf1.
    destruct (Z.gtb_spec (UnixNano (wall E (clock_reads st))) (Deadline s));
      [lia|].
    fold now. now rewrite Hd.
  - lia.
  - destruct (QuerySession_renews_step E token renewTTL st s Hs Hf0 Hf1 Hlive)
      as [Hst' Hsel]. fold now in Hst', Hsel.
    rewrite QuerySession_run. cbv zeta.
    rewrite Hst'. st_simpl. rewrite Hf2, Hsel.
    cbn [Deadline with_Deadline]. rewrite Hd.
    destruct (Z.gtb_spec (UnixNano (wall E (S (clock_reads st))))
                (now + renewTTL - 2 ^ 64)); [reflexivity|lia].
Qed.

(** Renewed at noon for the longest [time.Duration] there is. *)
Lemma QuerySession_renewal_overflow_witness :
  fst (QuerySession Sample.env "tok-alice" (2 ^ 63 - 1) Sample.start)
  = Ok (with_Deadline (12 * Sample.hour + (2 ^ 63 - 1) - 2 ^ 64)
                      Sample.alice_phone) /\
  fst (QuerySession Sample.env "tok-alice" Sample.hour
         (snd (QuerySession Sample.env "tok-alice" (2 ^ 63 - 1)
                 Sample.start)))
  = Err ErrSessionExpired.
Proof.
  pose proof (QuerySession_renewal_overflow Sample.env "tok-alice"
                (2 ^ 63 - 1) Sample.hour Sample.start Sample.alice_phone
                eq_refl (fun _ _ => eq_refl)
                ltac:(vm_compute; discriminate)
                ltac:(vm_compute; split; [discriminate|reflexivity])
                ltac:(vm_compute; split; [discriminate|reflexivity])
                ltac:(vm_compute; discriminate)
                ltac:(vm_compute; discriminate)) as [H1 [_ H2]].
  exact (conj H1 H2).
Defined.

(** ** More on creation *)

(** X11.  When [insert] fails, either the INSERT itself failed, and then
    no row was added, no clock was read and nothing was swept; or the
    DELETE of the sweep failed, and then the open transaction holds the
    new row and every row it had. *)
Theorem insert_failure_cases (E : Env) (s : Session) (st : State) (e : error) :
  fst (insert E s st) = Err e ->
  (exists cause,
     e = Wrapped cause "Failed to save session" /\
     tabs (snd (insert E s st)) = tabs st /\
     clock_reads (snd (insert E s st)) = clock_reads st) \/
  (e = Wrapped ErrDriver "Faield to cleanup expired sessions" /\
   sessions (tabs (snd (insert E s st))) = sessions (tabs st) ++ [s]).
Proof.
  rewrite insert_run. cbv zeta.
  destruct (fault E (db_ops st)).
  - intros [= <-]. left. eexists. repeat split.
  - destruct (insert_session s (sessions (tabs st))) as [ss|e'] eqn:Hins.
    + destruct (fault E (S (db_ops st))); [|discriminate].
      intros [= <-]. right. split; [reflexivity|]. st_simpl.
      now apply insert_session_ok in Hins.
    + intros [= <-]. left. eexists. repeat split.
Qed.

Lemma insert_failure_cases_witness :
  (exists cause,
     Wrapped ErrDriver "Failed to save session"
     = Wrapped cause "Failed to save session" /\
     tabs (snd (insert (Sample.env_fault_at 0) Sample.alice_new
                  Sample.start)) = tabs Sample.start /\
     clock_reads (snd (insert (Sample.env_fault_at 0) Sample.alice_new
                         Sample.start)) = clock_reads Sample.start) \/
  (Wrapped ErrDriver "Failed to save session"
   = Wrapped ErrDriver "Faield to cleanup expired sessions" /\
   sessions (tabs (snd (insert (Sample.env_fault_at 0) Sample.alice_new
                          Sample.start)))
   = sessions (tabs Sample.start) ++ [Sample.alice_new]).
Proof.
  exact (insert_failure_cases (Sample.env_fault_at 0) Sample.alice_new
           Sample.start _ eq_refl).
Defined.

(** ** More on signing in *)

(** The three ways a [Signin] ends: an error and no session, with the
    committed tables untouched; the session together with the error of a
    failed [Commit], likewise; or the session alone, stored and swept. *)
Lemma Signin_outcomes (E : Env) ttl user pass UA st :
  let r := Signin E ttl user pass UA st in
  let made passhash src s :=
    select_passhash user (users (tabs st)) = Some passhash /\
    bcrypt_matches E passhash pass = true /\
    entropy E (rand_reads st) = Some src /\
    s = mkSession (snowflake E (ids_made st)) user
                  (EncodeToString (map src (seq 0 32)))
                  (UnixNano (Time_Add (wall E (clock_reads st)) ttl)) UA in
  (exists err, fst r = (None, Some err) /\ tabs (snd r) = tabs st) \/
  (exists passhash src s,
     made passhash src s /\
     fst r = (Some s, Some ErrDriver) /\ tabs (snd r) = tabs st) \/
  (exists passhash src s,
     made passhash src s /\
     fst r = (Some s, None) /\
     tabs (snd r)
     = with_sessions
         (delete_where
            (deadline_before (UnixNano (wall E (S (S (clock_reads st))))))
            (sessions (tabs st) ++ [s]))
         (tabs st)).
Proof.
  cbv zeta. unfold Signin. rewrite transaction_run. cbv zeta.
  destruct (fault E (db_ops st)); [left; st_simpl; eauto|].
  rewrite Signin_tx_run. cbv zeta. st_simpl.
  destruct (fault E (S (db_ops st))); [left; st_simpl; eauto|].
  destruct (select_passhash user (users (tabs st))) as [h|] eqn:Hh;
    [|left; st_simpl; eauto].
  destruct (bcrypt_matches E h pass) eqn:Hpw; [|left; st_simpl; eauto].
  rewrite NewSession_run. st_simpl.
  destruct (entropy E (rand_reads st)) as [src|] eqn:Hent;
    [|left; st_simpl; eauto].
  rewrite insert_run. cbv zeta. st_simpl.
  destruct (fault E (S (S (db_ops st)))); [left; st_simpl; eauto|].
  destruct (insert_session _ _) as [ss|e] eqn:Hins; [|left; st_simpl; eauto].
  destruct (fault E (S (S (S (db_ops st))))); [left; st_simpl; eauto|].
  apply insert_session_ok in Hins. destruct Hins as [-> _].
  st_simpl. right.
  destruct (fault E (S (S (S (S (db_ops st)))))); [left|right];
    exists h, src; eexists; st_simpl; repeat split;
    try reflexivity; assumption.
Qed.

(** X12.  [Signin] returns a session, with or without an error beside
    it, only when the user has a row whose stored hash the password
    passes; the session then bears the given username and user agent, a
    token drawn from the entropy source, the next id of the generator and
    the first clock reading plus the configured lifespan. *)
Theorem Signin_session_needs_password
    (E : Env) (ttl : Duration) (user pass UA : string) (st : State)
    (s : Session) :
  fst (fst (Signin E ttl user pass UA st)) = Some s ->
  exists passhash src,
    select_passhash user (users (tabs st)) = Some passhash /\
    bcrypt_matches E passhash pass = true /\
    entropy E (rand_reads st) = Some src /\
    s = mkSession (snowflake E (ids_made st)) user
                  (EncodeToString (map src (seq 0 32)))
                  (UnixNano (Time_Add (wall E (clock_reads st)) ttl)) UA.
Proof.
  intros Hs.
  destruct (Signin_outcomes E ttl user pass UA st)
    as [[err [Hr _]]|[[h [src [s' [Hmade [Hr _]]]]]|[h [src [s' [Hmade [Hr _]]]]]]];
    rewrite Hr in Hs; simpl in Hs; [discriminate| |];
    injection Hs as <-; exists h, src; exact Hmade.
Qed.

Lemma Signin_session_needs_password_witness :
  exists passhash src,
    select_passhash "alice" (users (tabs Sample.start)) = Some passhash /\
    bcrypt_matches Sample.env passhash "secret" = true /\
    entropy Sample.env (rand_reads Sample.start) = Some src /\
    Sample.alice_new
    = mkSession (snowflake Sample.env (ids_made Sample.start)) "alice"
        (EncodeToString (map src (seq 0 32)))
        (UnixNano (Time_Add (wall Sample.env (clock_reads Sample.start))
                     (2 * Sample.hour))) "UA".
Proof.
  exact (Signin_session_needs_password Sample.env (2 * Sample.hour) "alice"
           "secret" "UA" Sample.start Sample.alice_new
           ltac:(vm_compute; reflexivity)).
Defined.

(** X13.  When every step of a [Signin] goes through and the driver
    fails on the [Commit], the caller receives the new session and the
    error together. *)
Theorem Signin_commit_failure
    (E : Env) (ttl : Duration) (user pass UA : string) (st : State)
    (passhash : list Byte.byte) (src : nat -> Byte.byte) :
  (forall n, (n < 4)%nat -> fault E (n + db_ops st) = false) ->
  fault E (4 + db_ops st) = true ->
  select_passhash user (users (tabs st)) = Some passhash ->
  bcrypt_matches E passhash pass = true ->
  entropy E (rand_reads st) = Some src ->
  let s := mkSession (snowflake E (ids_made st)) user
                     (EncodeToString (map src (seq 0 32)))
                     (UnixNano (Time_Add (wall E (clock_reads st)) ttl)) UA in
  existsb (session_collides s) (sessions (tabs st)) = false ->
  fst (Signin E ttl user pass UA st) = (Some s, Some ErrDriver).
Proof.
  intros Hf Hf4 Hh Hpw Hent s Hfree.
  pose proof (Hf 0%nat ltac:(lia)) as Hf0.
  pose proof (Hf 1%nat ltac:(lia)) as Hf1.
  pose proof (Hf 2%nat ltac:(lia)) as Hf2.
  pose proof (Hf 3%nat ltac:(lia)) as Hf3.
  simpl in Hf0, Hf1, Hf2, Hf3, Hf4.
  unfold Signin. rewrite transaction_run. cbv zeta. rewrite Hf0.
  rewrite Signin_tx_run. cbv zeta. st_simpl. rewrite Hf1, Hh, Hpw.
  rewrite NewSession_run. st_simpl. rewrite Hent. fold s.
  rewrite insert_run. cbv zeta. st_simpl. rewrite Hf2.
  unfold insert_session. rewrite Hfree. rewrite Hf3. st_simpl.
  rewrite Hf4. reflexivity.
Qed.

Lemma Signin_commit_failure_witness :
  fst (Signin (Sample.env_fault_at 4) (2 * Sample.hour) "alice" "secret" "UA"
         Sample.start)
  = (Some Sample.alice_new, Some ErrDriver).
Proof.
  exact (Signin_commit_failure (Sample.env_fault_at 4) (2 * Sample.hour)
           "alice" "secret" "UA" Sample.start Sample.hash_of_secret _
           (fun n Hn =>
              match n as n0 return (n0 < 4)%nat ->
                fault (Sample.env_fault_at 4) (n0 + db_ops Sample.start)
                = false with
              | 0%nat | 1%nat | 2%nat | 3%nat => fun _ => eq_refl
              | _ => fun H => ltac:(lia)
              end Hn)
           eq_refl eq_refl eq_refl eq_refl eq_refl).
Defined.


(** X15.  Whatever its outcome, [Signin] removes no session that is not
    due before the clock reading of its sweep, and alters none. *)
Theorem Signin_keeps_live_sessions
    (E : Env) (ttl : Duration) (user pass UA : string) (st : State)
    (row : Session) :
  In row (sessions (tabs st)) ->
  ~ Deadline row < UnixNano (wall E (S (S (clock_reads st)))) ->
  In row (sessions (tabs (snd (Signin E ttl user pass UA st)))).
Proof.
  intros Hin Hlive.
  destruct (Signin_outcomes E ttl user pass UA st)
    as [[err [_ Ht]]|[[h [src [s' [_ [_ Ht]]]]]|[h [src [s' [_ [_ Ht]]]]]]];
    rewrite Ht; [exact Hin|exact Hin|].
  st_simpl. apply In_delete_expired. split; [|exact Hlive].
  apply in_app_iff. now left.
Qed.

(** Alice signs in at noon; the sweep runs at one, and her phone's
    session, due at one, is kept. *)
Lemma Signin_keeps_live_sessions_witness :
  In Sample.alice_phone
     (sessions (tabs (snd (Signin Sample.env (2 * Sample.hour) "alice"
                             "secret" "UA" Sample.start)))).
Proof.
  exact (Signin_keeps_live_sessions Sample.env (2 * Sample.hour) "alice"
           "secret" "UA" Sample.start Sample.alice_phone
           ltac:(left; reflexivity)
           ltac:(intros H; vm_compute in H; discriminate H)).
Defined.

(** ** More on the token generator *)

(** X16.  Two tokens of [randToken] are equal only when the 32 bytes
    drawn were equal: draws that differ give tokens that differ. *)
Theorem randToken_distinct_draws_distinct_tokens
    (E1 E2 : Env) (st1 st2 : State) (src1 src2 : nat -> Byte.byte) :
  entropy E1 (rand_reads st1) = Some src1 ->
  entropy E2 (rand_reads st2) = Some src2 ->
  map src1 (seq 0 32) <> map src2 (seq 0 32) ->
  fst (randToken E1 st1) <> fst (randToken E2 st2).
Proof.
  intros H1 H2 Hne.
  unfold randToken, bind, wrap_err, rand_Read, ret. rewrite H1, H2.
  st_simpl. intros Heq. apply Hne. apply EncodeToString_inj. congruence.
Qed.

Lemma randToken_distinct_draws_distinct_tokens_witness :
  fst (randToken Sample.env Sample.start)
  <> fst (randToken More.env_zero_entropy Sample.start).
Proof.
  exact (randToken_distinct_draws_distinct_tokens Sample.env
           More.env_zero_entropy Sample.start Sample.start _ _
           eq_refl eq_refl
           ltac:(intros H; vm_compute in H; discriminate H)).
Defined.

(** ** The HTTP client *)

Lemma length_append (a b : string) :
  String.length (String.append a b) = (String.length a + String.length b)%nat.
Proof. induction a as [|c a IH]; simpl; [reflexivity|now rewrite IH]. Qed.

Lemma length_substring_0 (n : nat) : forall s : string,
  (n <= String.length s)%nat -> String.length (String.substring 0 n s) = n.
Proof.
  induction n as [|n IH]; intros [|c s] Hn; simpl in *;
    try reflexivity; try lia.
  rewrite IH by lia. reflexivity.
Qed.

Lemma status_outside (z : Z) :
  (z <? 200) || (z >? 299) = true <-> ~ (200 <= z <= 299).
Proof.
  rewrite orb_true_iff, Z.ltb_lt, Z.gtb_gt. lia.
Qed.

(** [Do] on a delivered response, by its status code. *)
Lemma Do_status_cases
    (W : Client.Net) (c : Client.Client) (req : Client.http_Request)
    (r : Client.http_Response) :
  Client.RoundTrip W (Client.override_UserAgent c req) = Client.Ok r ->
  (200 <= Client.RespStatus r <= 299 ->
   Client.Do W c req = Client.Ok r) /\
  (~ (200 <= Client.RespStatus r <= 299) ->
   exists e, Client.Do W c req = Client.Err (Client.Unexpected e) /\
             Client.Code e = Client.RespStatus r).
Proof.
  intros Hr. unfold Client.Do. rewrite Hr. split; intros Hs.
  - destruct ((Client.RespStatus r <? 200) || (Client.RespStatus r >? 299))
      eqn:Hout; [|reflexivity].
    apply status_outside in Hout. contradiction.
  - apply status_outside in Hs. rewrite Hs. cbv zeta.
    destruct (Client.RespBody r) as [b|]; [|eauto].
    destruct (negb _); [eauto|].
    destruct (100 <? String.length b)%nat; eauto.
Qed.

(** X17.  When the transport delivers a response, [Do] succeeds exactly
    when the status code is from 200 to 299, and then returns that very
    response; otherwise it returns an [ErrUnexpectedStatusCode] that
    carries the status code. *)
Theorem Do_accepts_exactly_2xx
    (W : Client.Net) (c : Client.Client) (req : Client.http_Request)
    (r : Client.http_Response) :
  Client.RoundTrip W (Client.override_UserAgent c req) = Client.Ok r ->
  ((exists q, Client.Do W c req = Client.Ok q) <->
   200 <= Client.RespStatus r <= 299) /\
  (forall q, Client.Do W c req = Client.Ok q -> q = r) /\
  (~ (200 <= Client.RespStatus r <= 299) ->
   exists e, Client.Do W c req = Client.Err (Client.Unexpected e) /\
             Client.Code e = Client.RespStatus r).
Proof.
  intros Hr. destruct (Do_status_cases W c req r Hr) as [Hin Hout].
  assert (Hdec : 200 <= Client.RespStatus r <= 299 \/
                 ~ (200 <= Client.RespStatus r <= 299)) by lia.
  split; [|split].
  - split; [|intros Hs; exists r; now apply Hin].
    intros [q Hq]. destruct Hdec as [Hs|Hs]; [exact Hs|].
    destruct (Hout Hs) as [e [He _]]. rewrite He in Hq. discriminate Hq.
  - intros q Hq. destruct Hdec as [Hs|Hs].
    + rewrite (Hin Hs) in Hq. now injection Hq.
    + destruct (Hout Hs) as [e [He _]]. rewrite He in Hq. discriminate Hq.
  - exact Hout.
Qed.

Lemma Do_accepts_exactly_2xx_witness :
  (exists q,
     Client.Do (Client.answering (Client.mkResponse 204 (Some ""))
                                 (fun _ => ""))
               Client.browser (Client.mkRequest "GET" "/" None [])
     = Client.Ok q) /\
  exists e,
    Client.Do (Client.answering (Client.mkResponse 404 (Some "gone"))
                                (fun _ => ""))
              Client.browser (Client.mkRequest "GET" "/" None [])
    = Client.Err (Client.Unexpected e) /\ Client.Code e = 404.
Proof.
  split.
  - exact (proj2 (proj1 (Do_accepts_exactly_2xx
                    (Client.answering (Client.mkResponse 204 (Some ""))
                                      (fun _ => ""))
                    Client.browser (Client.mkRequest "GET" "/" None []) _
                    eq_refl))
                 ltac:(vm_compute; split; discriminate)).
  - exact (proj2 (proj2 (Do_accepts_exactly_2xx
                    (Client.answering (Client.mkResponse 404 (Some "gone"))
                                      (fun _ => ""))
                    Client.browser (Client.mkRequest "GET" "/" None []) _
                    eq_refl))
                 ltac:(vm_compute; intros [_ H]; apply H; reflexivity)).
Defined.

(** X18.  The error [Do] makes of a response outside 200..299 never
    holds both a message and a body, and its body is at most 100 bytes:
    the whole body when that has at most 100 bytes, and otherwise its
    first 97 bytes followed by three dots, 100 bytes in all. *)
Theorem Do_error_body_is_bounded
    (W : Client.Net) (c : Client.Client) (req : Client.http_Request)
    (e : Client.ErrUnexpectedStatusCode) :
  Client.Do W c req = Client.Err (Client.Unexpected e) ->
  (String.length (Client.Body e) <= 100)%nat /\
  (Client.ErrMsg e = "" \/ Client.Body e = "") /\
  forall r b,
    Client.RoundTrip W (Client.override_UserAgent c req) = Client.Ok r ->
    Client.RespBody r = Some b ->
    Client.json_Error W b = "" ->
    ((String.length b <= 100)%nat -> Client.Body e = b) /\
    ((100 < String.length b)%nat ->
     Client.Body e = String.append (String.substring 0 97 b) "..." /\
     String.length (Client.Body e) = 100%nat).
Proof.
  unfold Client.Do.
  destruct (Client.RoundTrip W (Client.override_UserAgent c req)) as [r|err];
    [|discriminate].
  destruct ((Client.RespStatus r <? 200) || (Client.RespStatus r >? 299));
    [|discriminate].
  cbv zeta. destruct (Client.RespBody r) as [b|] eqn:Hb.
  - destruct (String.eqb_spec (Client.json_Error W b) "") as [Hj|Hj];
      cbn [negb].
    + destruct (Nat.ltb_spec 100 (String.length b)) as [Hlong|Hshort];
        intros [= <-]; cbn [Client.Body Client.ErrMsg Client.Code].
      * assert (Hlen : String.length
                         (String.append (String.substring 0 97 b) "...")
                       = 100%nat)
          by (rewrite length_append, length_substring_0 by lia; reflexivity).
        split; [lia|]. split; [now left|].
        intros r' b' [= <-] Hb' _. rewrite Hb in Hb'. injection Hb' as <-.
        split; [lia|]. intros _. split; [reflexivity|exact Hlen].
      * split; [exact Hshort|]. split; [now left|].
        intros r' b' [= <-] Hb' _. rewrite Hb in Hb'. injection Hb' as <-.
        split; [reflexivity|lia].
    + intros [= <-]. cbn [Client.Body Client.ErrMsg Client.Code].
      split; [simpl; lia|]. split; [now right|].
      intros r' b' [= <-] Hb' Hj'. rewrite Hb in Hb'. injection Hb' as <-.
      contradiction.
  - intros [= <-]. cbn [Client.Body Client.ErrMsg Client.Code].
    split; [simpl; lia|]. split; [now left|].
    intros r' b' [= <-] Hb'. rewrite Hb in Hb'. discriminate Hb'.
Qed.

(** A page of 120 bytes comes back under status 500. *)
Lemma Do_error_body_is_bounded_witness :
  exists e,
    Client.Do (Client.answering (Client.mkResponse 500 (Some More.long_body))
                                (fun _ => ""))
              Client.browser (Client.mkRequest "GET" "/" None [])
    = Client.Err (Client.Unexpected e) /\
    String.length (Client.Body e) = 100%nat.
Proof.
  eexists. split; [reflexivity|].
  exact (proj2 (proj2 (proj2 (proj2 (Do_error_body_is_bounded
           (Client.answering (Client.mkResponse 500 (Some More.long_body))
                             (fun _ => ""))
           Client.browser (Client.mkRequest "GET" "/" None []) _ eq_refl))
           _ _ eq_refl eq_refl eq_refl)
           ltac:(vm_compute; lia))).
Defined.

(** X19.  [ErrGetStatusCode] on the error of [Request] (and so of [Get],
    [Post] and [Delete]): against a server that answers with a status
    code outside 200..299 it is that status code, whatever [orCode] is;
    when the request cannot be created or the transport fails it is
    [orCode], as it is for a [nil] error. *)
Theorem Request_error_status_code
    (W : Client.Net) (c : Client.Client) (method path : string)
    (want : bool) (v : Client.Values) (orCode : Z) :
  (forall r,
     (forall req, Client.RoundTrip W req = Client.Ok r) ->
     (forall m u, Client.NewRequest_accepts W m u = true) ->
     ~ (200 <= Client.RespStatus r <= 299) ->
     exists err,
       Client.Request W c method path want v = Client.Err err /\
       Client.ErrGetStatusCode (Some err) orCode = Client.RespStatus r) /\
  ((forall req, exists e, Client.RoundTrip W req = Client.Err e) ->
   exists err,
     Client.Request W c method path want v = Client.Err err /\
     Client.ErrGetStatusCode (Some err) orCode = orCode) /\
  Client.ErrGetStatusCode None orCode = orCode.
Proof.
  split; [|split]; [| |reflexivity].
  - intros r Hr Hacc Hout.
    assert (HDo : forall req, exists e,
              Client.Do W c req = Client.Err (Client.Unexpected e) /\
              Client.Code e = Client.RespStatus r)
      by (intros req;
          exact (proj2 (Do_status_cases W c req r (Hr _)) Hout)).
    unfold Client.Request, Client.NewRequest. cbv zeta.
    destruct (_ || _); rewrite Hacc; unfold Client.DoJSON;
      match goal with
      | |- context [Client.Do W c ?q] =>
          destruct (HDo q) as [e [-> He]]
      end;
      eexists; (split; [reflexivity|exact He]).
  - intros Hdown.
    assert (HDo : forall req, exists e,
              Client.Do W c req
              = Client.Err (Client.Wrapped e "Failed to send request")).
    { intros req. unfold Client.Do.
      destruct (Hdown (Client.override_UserAgent c req)) as [e ->]. eauto. }
    unfold Client.Request, Client.NewRequest. cbv zeta.
    destruct (_ || _); destruct (Client.NewRequest_accepts W _ _);
      try (eexists; split; reflexivity);
      unfold Client.DoJSON;
      match goal with
      | |- context [Client.Do W c ?q] => destruct (HDo q) as [e ->]
      end;
      eexists; split; reflexivity.
Qed.

Lemma Request_error_status_code_witness :
  exists err,
    Client.Get (Client.answering (Client.mkResponse 404 (Some "gone"))
                                 (fun _ => ""))
               Client.browser "/posts" true [] = Client.Err err /\
    Client.ErrGetStatusCode (Some err) 500 = 404.
Proof.
  exact (proj1 (Request_error_status_code
                  (Client.answering (Client.mkResponse 404 (Some "gone"))
                                    (fun _ => ""))
                  Client.browser "GET" "/posts" true [] 500)
               (Client.mkResponse 404 (Some "gone"))
               (fun _ => eq_refl) (fun _ _ => eq_refl)
               ltac:(vm_compute; intros [_ H]; apply H; reflexivity)).
Defined.

Lemma eqb_empty_false (s : string) :
  s <> "" -> String.eqb s "" = false.
Proof. intros H. now apply String.eqb_neq. Qed.

Lemma nonempty_of_length (s : string) (n : nat) :
  String.length s = S n -> s <> "".
Proof. intros H ->. discriminate H. Qed.

(** X20.  The text of the error [Do] makes of a response outside
    200..299 starts with the status code in decimal; it goes on with the
    [Error] field of the JSON body when there is one, otherwise with the
    body (cut as [Do] cuts it) when that is not empty, and otherwise with
    nothing. *)
Theorem Do_error_message
    (W : Client.Net) (c : Client.Client) (req : Client.http_Request)
    (r : Client.http_Response) (e : Client.ErrUnexpectedStatusCode) :
  Client.RoundTrip W (Client.override_UserAgent c req) = Client.Ok r ->
  Client.Do W c req = Client.Err (Client.Unexpected e) ->
  let prefix := String.append "Unexpected status code "
                              (Client.Sprintf_d (Client.RespStatus r)) in
  (forall b, Client.RespBody r = Some b -> Client.json_Error W b <> "" ->
     Client.Error e
     = String.append prefix (String.append ": " (Client.json_Error W b))) /\
  (forall b, Client.RespBody r = Some b -> Client.json_Error W b = "" ->
     b <> "" ->
     Client.Error e
     = String.append prefix (String.append ", body: " (Client.Body e))) /\
  (forall b, Client.RespBody r = Some b -> Client.json_Error W b = "" ->
     b = "" -> Client.Error e = prefix) /\
  (Client.RespBody r = None -> Client.Error e = prefix).
Proof.
  intros Hr. unfold Client.Do. rewrite Hr.
  destruct ((Client.RespStatus r <? 200) || (Client.RespStatus r >? 299));
    [|discriminate].
  cbv zeta. destruct (Client.RespBody r) as [b|] eqn:Hb.
  - destruct (String.eqb_spec (Client.json_Error W b) "") as [Hj|Hj];
      cbn [negb].
    + destruct (Nat.ltb_spec 100 (String.length b)) as [Hlong|Hshort];
        intros [= <-]; unfold Client.Error;
        cbn [Client.Body Client.ErrMsg Client.Code negb String.eqb].
      * assert (Hne : String.append (String.substring 0 97 b) "..." <> "").
        { apply nonempty_of_length with (n := 99%nat).
          rewrite length_append, length_substring_0 by lia. reflexivity. }
        rewrite (eqb_empty_false _ Hne). cbn [negb].
        split; [|split; [|split]].
        -- intros b' [= <-] Hj'. contradiction.
        -- intros b' [= <-] _ _. reflexivity.
        -- intros b' [= <-] _ Hb'. subst b. simpl in Hlong. lia.
        -- intros H. discriminate H.
      * split; [|split; [|split]].
        -- intros b' [= <-] Hj'. contradiction.
        -- intros b' [= <-] _ Hb'. now rewrite (eqb_empty_false _ Hb').
        -- intros b' [= <-] _ Hb'. subst b. reflexivity.
        -- intros H. discriminate H.
    + intros [= <-]. unfold Client.Error.
      cbn [Client.Body Client.ErrMsg Client.Code].
      rewrite (eqb_empty_false _ Hj). cbn [negb].
      split; [|split; [|split]].
      * intros b' [= <-] _. reflexivity.
      * intros b' [= <-] Hj'. contradiction.
      * intros b' [= <-] Hj'. contradiction.
      * intros H. discriminate H.
  - intros [= <-]. unfold Client.Error.
    cbn [Client.Body Client.ErrMsg Client.Code negb String.eqb].
    split; [|split; [|split]]; intros; congruence.
Qed.

Lemma Do_error_message_witness :
  exists e,
    Client.Do (Client.answering (Client.mkResponse 403 (Some "{...}"))
                                (fun _ => "not allowed"))
              Client.browser (Client.mkRequest "GET" "/" None [])
    = Client.Err (Client.Unexpected e) /\
    Client.Error e = "Unexpected status code 403: not allowed".
Proof.
  eexists. split; [reflexivity|].
  exact (proj1 (Do_error_message
                  (Client.answering (Client.mkResponse 403 (Some "{...}"))
                                    (fun _ => "not allowed"))
                  Client.browser (Client.mkRequest "GET" "/" None []) _ _
                  eq_refl eq_refl)
               "{...}" eq_refl ltac:(discriminate)).
Defined.

(** X21.  Against a server that answers with a status code from 200 to
    299, [Request] called without a place for the answer succeeds
    without decoding the body, whatever the body is; called with one, it
    returns what the JSON decoder makes of the body, and the wrapped
    decoder error when the body cannot be read or decoded. *)
Theorem Request_decodes_on_demand
    (W : Client.Net) (c : Client.Client) (method path : string)
    (v : Client.Values) (r : Client.http_Response) :
  (forall req, Client.RoundTrip W req = Client.Ok r) ->
  (forall m u, Client.NewRequest_accepts W m u = true) ->
  200 <= Client.RespStatus r <= 299 ->
  Client.Request W c method path false v = Client.Ok None /\
  (forall b val,
     Client.RespBody r = Some b -> Client.json_Decode W b = Some val ->
     Client.Request W c method path true v = Client.Ok (Some val)) /\
  (Client.RespBody r = None \/
   (exists b, Client.RespBody r = Some b /\ Client.json_Decode W b = None) ->
   Client.Request W c method path true v
   = Client.Err (Client.Wrapped Client.ErrJSON "Failed to decode JSON")).
Proof.
  intros Hr Hacc Hs.
  assert (HDo : forall req, Client.Do W c req = Client.Ok r)
    by (intros req; exact (proj1 (Do_status_cases W c req r (Hr _)) Hs)).
  assert (Hrun : forall want,
            Client.Request W c method path want v =
            if want
            then match match Client.RespBody r with
                       | Some b => Client.json_Decode W b
                       | None => None
                       end with
                 | Some val => Client.Ok (Some val)
                 | None => Client.Err (Client.Wrapped Client.ErrJSON
                                         "Failed to decode JSON")
                 end
            else Client.Ok None).
  { intros want. unfold Client.Request, Client.NewRequest. cbv zeta.
    destruct (_ || _); rewrite Hacc; unfold Client.DoJSON;
      rewrite HDo; reflexivity. }
  split; [|split].
  - apply Hrun.
  - intros b val Hb Hval. now rewrite Hrun, Hb, Hval.
  - intros [Hb|[b [Hb Hval]]]; rewrite Hrun, Hb; [|rewrite Hval];
      reflexivity.
Qed.

Lemma Request_decodes_on_demand_witness :
  Client.Delete (Client.answering (Client.mkResponse 204 (Some ""))
                                  (fun _ => ""))
                Client.browser "/posts/1" false [] = Client.Ok None.
Proof.
  exact (proj1 (Request_decodes_on_demand
                  (Client.answering (Client.mkResponse 204 (Some ""))
                                    (fun _ => ""))
                  Client.browser "DELETE" "/posts/1" []
                  (Client.mkResponse 204 (Some ""))
                  (fun _ => eq_refl) (fun _ _ => eq_refl)
                  ltac:(vm_compute; split; discriminate))).
Defined.
